(** * Talker.js: a shallow embedding of [src/talker.js] and its protocol properties

    The development follows the layout of the source file: constants, the
    [Talker] object with its private methods, then the outgoing and incoming
    message wrappers.  JavaScript objects become records, mutation becomes
    explicit state passing, the [_sent] object used as an id-indexed table
    becomes a finite map keyed by property name, and the places where the
    source can raise ([object.type] on a parsed [null], and the lookup and
    call of [this._sent[id]]) are carried by a small completion monad.

    The environment is kept next to the instance: the [postMessage] calls it
    makes, the calls of the [onMessage] callback and the promises it hands
    out are logged in the record, and time is the order in which timers and
    [message] events occur.  [JSON.parse] and [JSON.stringify] are taken by
    their results on JSON values. *)

From Stdlib Require Import ZArith Lia List Bool Sorted Ascii.
From stdpp Require Import gmap strings list pretty.

Local Open Scope string_scope.
Local Open Scope list_scope.
Set Warnings "-register-all".

(** ** Constants *)

Definition TALKER_TYPE : string := "application/x-talkerjs-v1+json".
Definition TALKER_ERR_TIMEOUT : string := "timeout".

(** ** JavaScript values that cross the wire *)

(** What [JSON.parse] can return.  Numbers are the integer-valued ones (ids
    are counters); [JObj] lists the own properties of the object, the first
    binding of a name being its value. *)
Inductive json : Type :=
| JNull
| JBool (b : bool)
| JNum (n : Z)
| JStr (s : string)
| JArr (items : list json)
| JObj (fields : list (string * json)).

(** A value as the code sees it: [undefined] or a JSON value. *)
Definition undefined : option json := None.

(** Window references: [remoteWindow] and [messageEvent.source]. *)
Inductive winref : Type :=
| WUndefined
| WNull
| WRef (w : nat).

#[global] Instance winref_eq_dec : EqDecision winref.
Proof. solve_decision. Defined.

(** Completion of a JavaScript statement: normal, or an exception. *)
Inductive completion (A : Type) : Type :=
| Normal (a : A)
| Throw (e : string).
Arguments Normal {A} a.
Arguments Throw {A} e.

#[global] Instance completion_ret : MRet completion := fun A a => Normal a.

#[global] Instance completion_bind : MBind completion := fun A B k c =>
  match c with
  | Normal a => k a
  | Throw e => Throw e
  end.

(** ToBoolean. *)
Definition truthy (v : option json) : bool :=
  match v with
  | None => false
  | Some JNull => false
  | Some (JBool b) => b
  | Some (JNum n) => negb (n =? 0)%Z
  | Some (JStr s) => negb (String.eqb s "")
  | Some (JArr _) => true
  | Some (JObj _) => true
  end.

(** [v === s] for a string constant [s]: no coercion, so only a string with
    the same characters is equal. *)
Definition strict_eq_string (v : option json) (s : string) : bool :=
  match v with
  | Some (JStr s') => String.eqb s' s
  | _ => false
  end.

(** [a || b] on values. *)
Definition js_or (a b : option json) : option json :=
  if truthy a then a else b.

Fixpoint assoc (k : string) (fields : list (string * json)) : option json :=
  match fields with
  | [] => None
  | (k', v) :: rest => if String.eqb k k' then Some v else assoc k rest
  end.

(** Property read [o.k] for the names the source reads ([type], [handshake],
    [handshakeConfirmation], [namespace], [data], [id], [responseToId]):
    a [TypeError] on [null], the own property of an object, [undefined] on
    every other JSON value. *)
Definition member (o : json) (k : string) : completion (option json) :=
  match o with
  | JNull => Throw "TypeError"
  | JObj fields => Normal (assoc k fields)
  | _ => Normal None
  end.

(** The integers a JavaScript number holds exactly lie within [2^53] of 0. *)
Definition MAX_EXACT : Z := 2 ^ 53.

(** Number::toString on an integer above [2^53].  The number is the double
    nearest to [a], [M * 2^E] with [2^52 <= M < 2^53]; its text has the
    fewest digits [s] such that [s * 10^p] still reads back as that double
    (the one closest to it when two fit), written out with [p] zeros up to
    21 integer digits and in exponent form beyond. *)
Definition nearest_double (a : Z) : Z * Z :=
  let e := (Z.log2 a - 52)%Z in
  let m := (a / 2 ^ e)%Z in
  let r := (a mod 2 ^ e)%Z in
  let up := ((2 ^ e <? 2 * r) || ((2 ^ e =? 2 * r) && Z.odd m))%Z in
  let m := if up then (m + 1)%Z else m in
  if (m =? 2 ^ 53)%Z then (2 ^ 52, e + 1)%Z else (m, e).

(** Does the decimal [c] read back as the double [M * 2^E]?  The bounds
    are the midpoints to the neighbouring doubles, taken in when [M] is
    even. *)
Definition reads_back (M E c : Z) : bool :=
  let x4 := (4 * (M * 2 ^ E))%Z in
  let above := (2 * 2 ^ E)%Z in
  let below := if (M =? 2 ^ 52)%Z then (2 ^ E)%Z else (2 * 2 ^ E)%Z in
  if Z.even M
  then ((x4 - below <=? 4 * c) && (4 * c <=? x4 + above))%Z
  else ((x4 - below <? 4 * c) && (4 * c <? x4 + above))%Z.

Definition digits_at (M E p : Z) : option Z :=
  let x := (M * 2 ^ E)%Z in
  let lo := (x / 10 ^ p)%Z in
  let hi := (lo + 1)%Z in
  let lo_ok := reads_back M E (lo * 10 ^ p) in
  let hi_ok := reads_back M E (hi * 10 ^ p) in
  match lo_ok, hi_ok with
  | true, true =>
      let dlo := (x - lo * 10 ^ p)%Z in
      let dhi := (hi * 10 ^ p - x)%Z in
      if (dlo <? dhi)%Z then Some lo
      else if (dhi <? dlo)%Z then Some hi
      else if Z.even lo then Some lo else Some hi
  | true, false => Some lo
  | false, true => Some hi
  | false, false => None
  end.

Fixpoint shortest_digits (fuel : nat) (M E p s : Z) : Z * Z :=
  match fuel with
  | O => (s, p)
  | S fuel =>
      match digits_at M E (p + 1) with
      | Some s' => shortest_digits fuel M E (p + 1) s'
      | None => (s, p)
      end
  end.

Fixpoint zeros (n : nat) : string :=
  match n with
  | O => ""
  | S n => "0" +:+ zeros n
  end.

Definition big_Number_toString (a : Z) : string :=
  let '(M, E) := nearest_double a in
  if (972 <=? E)%Z then "Infinity"
  else
    let '(s, p) := shortest_digits 400 M E 0 (M * 2 ^ E) in
    let ds := pretty s in
    let k := Z.of_nat (String.length ds) in
    let n := (k + p)%Z in
    if (n <=? 21)%Z then ds +:+ zeros (Z.to_nat p)
    else
      match ds with
      | String d rest =>
          String d (match rest with "" => "" | _ => "." +:+ rest end)
            +:+ "e+" +:+ pretty (n - 1)%Z
      | "" => ""
      end.

(** Number::toString on an integer: exact decimal within [2^53] of 0. *)
Definition Number_toString (n : Z) : string :=
  if (Z.abs n <=? MAX_EXACT)%Z then pretty n
  else (if (n <? 0)%Z then "-" else "") +:+ big_Number_toString (Z.abs n).

(** ToString on a value whose conversion completes, as used when the value
    indexes the [_sent] object: an array joins its elements with commas,
    [null] elements printing as nothing; a plain object prints through
    [Object.prototype.toString]. *)
Fixpoint ToString (v : json) : string :=
  match v with
  | JNull => "null"
  | JBool true => "true"
  | JBool false => "false"
  | JNum n => Number_toString n
  | JStr s => s
  | JArr items =>
      (fix join (l : list json) : string :=
         match l with
         | [] => ""
         | x :: rest =>
             let sx := match x with JNull => "" | _ => ToString x end in
             match rest with
             | [] => sx
             | _ :: _ => sx +:+ "," +:+ join rest
             end
         end) items
  | JObj _ => "[object Object]"
  end.

(** The conversion of an object to a string calls its [toString], then its
    [valueOf].  A parsed object with an own [toString] member hides the
    inherited method behind a value that cannot be called, and [valueOf],
    own or inherited, gives no primitive: the conversion raises a
    [TypeError].  An array raises when one of its elements does. *)
Fixpoint conversion_raises (v : json) : bool :=
  match v with
  | JObj fields => bool_decide (is_Some (assoc "toString" fields))
  | JArr items =>
      (fix any (l : list json) : bool :=
         match l with
         | [] => false
         | x :: rest => conversion_raises x || any rest
         end) items
  | _ => false
  end.

Definition property_key (v : option json) : string :=
  match v with
  | None => "undefined"
  | Some j => ToString j
  end.

(** ToPropertyKey: the property name of a value, or the [TypeError] of its
    conversion. *)
Definition ToPropertyKey (v : option json) : completion string :=
  match v with
  | None => Normal "undefined"
  | Some j => if conversion_raises j then Throw "TypeError" else Normal (ToString j)
  end.

(** What a plain object such as [_sent] inherits from [Object.prototype],
    by what happens when the member is called with a message, as
    [_respondToMessage] does: [__proto__] is the prototype object itself,
    which is not a function, and [__defineGetter__] and [__defineSetter__]
    reject a call without a function argument, so these three raise a
    [TypeError]; the other methods return without any effect. *)
Inductive inherited : Type :=
| CallRaises
| CallReturns.

Definition Object_prototype (key : string) : option inherited :=
  if bool_decide (key ∈ ["__proto__"; "__defineGetter__"; "__defineSetter__"])
  then Some CallRaises
  else if bool_decide (key ∈ ["constructor"; "hasOwnProperty"; "isPrototypeOf";
                               "propertyIsEnumerable"; "toLocaleString"; "toString";
                               "valueOf"; "__lookupGetter__"; "__lookupSetter__"])
  then Some CallReturns
  else None.

(** [n + 1] on a JavaScript number.  Numbers are IEEE-754 doubles: for an
    integer [0 <= n < 2^53] the sum is exact; [2^53 + 1] is not
    representable and rounds, ties to even, back to [2^53].  The counter
    starts at 0, so these are the only values it takes. *)
Definition js_add1 (n : Z) : Z :=
  if (n <? MAX_EXACT)%Z then (n + 1)%Z else n.

(** ** Promises *)

Inductive promise (A : Type) : Type :=
| Pending
| Fulfilled (a : A)
| Rejected (e : string).
Arguments Pending {A}.
Arguments Fulfilled {A} a.
Arguments Rejected {A} e.

(** ** Messages *)

(** [Talker.OutgoingMessage]; the [talker] back reference is the instance
    the message is built on. *)
Record OutgoingMessage : Type := {
  om_namespace : option json;
  om_data : option json;
  om_type : string;
  om_responseToId : json;
  om_id : Z
}.

(** [Talker.IncomingMessage]. *)
Record IncomingMessage : Type := {
  im_namespace : option json;
  im_data : option json;
  im_type : string;
  im_id : option json
}.

(** [Talker.OutgoingMessage.prototype.toJSON]. *)
Definition toJSON (m : OutgoingMessage) : list (string * option json) :=
  [ ("id", Some (JNum (om_id m)));
    ("responseToId", Some (om_responseToId m));
    ("namespace", om_namespace m);
    ("data", om_data m);
    ("type", Some (JStr (om_type m))) ].

(** [JSON.stringify] of an object: members whose value is [undefined] are
    left out.  The serialised text is represented by the JSON value it
    denotes, which is also what [JSON.parse] gives back on the other side. *)
Definition JSON_stringify (members : list (string * option json)) : json :=
  JObj (omap (fun '(k, v) => match v with Some j => Some (k, j) | None => None end) members).

(** The raw [messageEvent.data], by what [JSON.parse] does on it. *)
Inductive payload : Type :=
| Unparsable
| Parses (v : json).

Definition JSON_parse (p : payload) : completion json :=
  match p with
  | Unparsable => Throw "SyntaxError"
  | Parses v => Normal v
  end.

Record MessageEvent : Type := {
  source : winref;
  origin : string;
  data : payload
}.

(** ** The Talker object *)

(** The fields of the instance, followed by the environment it acts on: the
    [postMessage] calls made on the remote window, the messages handed to
    the [onMessage] callback, and the promises returned by [send] (a
    resolver stored in [_sent] is the index of its promise).  [_sent] holds
    the properties the code stores in it, what it inherits being told by
    [Object_prototype]; [onMessage] tells whether a
    callback is installed, and what the callback goes on to do with the
    instance comes as later events of the run. *)
Record Talker : Type := {
  remoteWindow : winref;
  remoteOrigin : option string;
  timeout : Z;
  handshaken : bool;
  handshake : promise bool;
  _id : Z;
  _queue : list OutgoingMessage;
  _sent : gmap string nat;
  onMessage : bool;
  posted : list (json * string);
  delivered : list IncomingMessage;
  futures : list (promise IncomingMessage)
}.

Definition set_handshaken (b : bool) (t : Talker) : Talker :=
  {| remoteWindow := remoteWindow t; remoteOrigin := remoteOrigin t;
     timeout := timeout t; handshaken := b; handshake := handshake t;
     _id := _id t; _queue := _queue t; _sent := _sent t;
     onMessage := onMessage t; posted := posted t;
     delivered := delivered t; futures := futures t |}.

Definition set_handshake (p : promise bool) (t : Talker) : Talker :=
  {| remoteWindow := remoteWindow t; remoteOrigin := remoteOrigin t;
     timeout := timeout t; handshaken := handshaken t; handshake := p;
     _id := _id t; _queue := _queue t; _sent := _sent t;
     onMessage := onMessage t; posted := posted t;
     delivered := delivered t; futures := futures t |}.

Definition set_id (n : Z) (t : Talker) : Talker :=
  {| remoteWindow := remoteWindow t; remoteOrigin := remoteOrigin t;
     timeout := timeout t; handshaken := handshaken t; handshake := handshake t;
     _id := n; _queue := _queue t; _sent := _sent t;
     onMessage := onMessage t; posted := posted t;
     delivered := delivered t; futures := futures t |}.

Definition set_queue (q : list OutgoingMessage) (t : Talker) : Talker :=
  {| remoteWindow := remoteWindow t; remoteOrigin := remoteOrigin t;
     timeout := timeout t; handshaken := handshaken t; handshake := handshake t;
     _id := _id t; _queue := q; _sent := _sent t;
     onMessage := onMessage t; posted := posted t;
     delivered := delivered t; futures := futures t |}.

Definition set_sent (s : gmap string nat) (t : Talker) : Talker :=
  {| remoteWindow := remoteWindow t; remoteOrigin := remoteOrigin t;
     timeout := timeout t; handshaken := handshaken t; handshake := handshake t;
     _id := _id t; _queue := _queue t; _sent := s;
     onMessage := onMessage t; posted := posted t;
     delivered := delivered t; futures := futures t |}.

Definition set_onMessage (b : bool) (t : Talker) : Talker :=
  {| remoteWindow := remoteWindow t; remoteOrigin := remoteOrigin t;
     timeout := timeout t; handshaken := handshaken t; handshake := handshake t;
     _id := _id t; _queue := _queue t; _sent := _sent t;
     onMessage := b; posted := posted t;
     delivered := delivered t; futures := futures t |}.

Definition set_posted (p : list (json * string)) (t : Talker) : Talker :=
  {| remoteWindow := remoteWindow t; remoteOrigin := remoteOrigin t;
     timeout := timeout t; handshaken := handshaken t; handshake := handshake t;
     _id := _id t; _queue := _queue t; _sent := _sent t;
     onMessage := onMessage t; posted := p;
     delivered := delivered t; futures := futures t |}.

Definition set_delivered (d : list IncomingMessage) (t : Talker) : Talker :=
  {| remoteWindow := remoteWindow t; remoteOrigin := remoteOrigin t;
     timeout := timeout t; handshaken := handshaken t; handshake := handshake t;
     _id := _id t; _queue := _queue t; _sent := _sent t;
     onMessage := onMessage t; posted := posted t;
     delivered := d; futures := futures t |}.

Definition set_futures (f : list (promise IncomingMessage)) (t : Talker) : Talker :=
  {| remoteWindow := remoteWindow t; remoteOrigin := remoteOrigin t;
     timeout := timeout t; handshaken := handshaken t; handshake := handshake t;
     _id := _id t; _queue := _queue t; _sent := _sent t;
     onMessage := onMessage t; posted := posted t;
     delivered := delivered t; futures := f |}.

(** ** Private methods, in the order of the source *)

(** [Talker.prototype._nextId]: [return this._id += 1]. *)
Definition _nextId (t : Talker) : Z * Talker :=
  let n := js_add1 (_id t) in
  (n, set_id n t).

Definition window_truthy (w : winref) : bool :=
  match w with
  | WRef _ => true
  | _ => false
  end.

Definition origin_truthy (o : option string) : bool :=
  match o with
  | Some s => negb (String.eqb s "")
  | None => false
  end.

(** The guard of [_postMessage]: [this.remoteWindow && this.remoteOrigin]. *)
Definition configured (t : Talker) : bool :=
  window_truthy (remoteWindow t) && origin_truthy (remoteOrigin t).

(** [Talker.prototype._postMessage]: the guard
    [this.remoteWindow && this.remoteOrigin], then one [postMessage] call on
    the remote window with the serialised data and the remote origin. *)
Definition _postMessage (data : json) (t : Talker) : Talker :=
  if configured t
  then set_posted (posted t ++ [(data, default "" (remoteOrigin t))]) t
  else t.

(** [Talker.prototype._sendHandshake]. *)
Definition _sendHandshake (confirmation : bool) (t : Talker) : Talker :=
  let handshakeType := if confirmation then "handshakeConfirmation" else "handshake" in
  let message := [ ("type", Some (JStr TALKER_TYPE)); (handshakeType, Some (JBool true)) ] in
  _postMessage (JSON_stringify message) t.

(** [Talker.prototype._flushQueue].  [q] is [this._queue] at the call; the
    recursive call of the source is made on the queue left by [shift]. *)
Fixpoint flush_from (q : list OutgoingMessage) (t : Talker) : Talker :=
  if handshaken t then
    match q with
    | [] => t
    | message :: rest =>
        let t := set_queue rest t in
        let t := _postMessage (JSON_stringify (toJSON message)) t in
        if (0 <? length rest)%nat then flush_from rest t else t
    end
  else t.

Definition _flushQueue (t : Talker) : Talker := flush_from (_queue t) t.

(** [Talker.prototype._isSafeMessage]. *)
Definition _isSafeMessage (source : winref) (origin : string) (type : option json)
    (t : Talker) : bool :=
  let safeSource := bool_decide (source = remoteWindow t) in
  let safeOrigin :=
    bool_decide (remoteOrigin t = Some "*") || bool_decide (Some origin = remoteOrigin t) in
  let safeType := strict_eq_string type TALKER_TYPE in
  safeSource && safeOrigin && safeType.

(** The resolver of promise [h] called with [message], and the timer of
    promise [h] calling its [reject]: both settle the promise returned by
    [send] (the race of the two) when it is still pending, and do nothing
    otherwise. *)
Definition settle (h : nat) (outcome : promise IncomingMessage) (t : Talker) : Talker :=
  match futures t !! h with
  | Some Pending => set_futures (<[h := outcome]> (futures t)) t
  | _ => t
  end.

(** [this.resolveHandshake(true)] *)
Definition resolveHandshake (v : bool) (t : Talker) : Talker :=
  match handshake t with
  | Pending => set_handshake (Fulfilled v) t
  | _ => t
  end.

(** [Talker.prototype._handleHandshake]. *)
Definition _handleHandshake (object : json) (t : Talker) : completion Talker :=
  h ← member object "handshake";
  let t := if truthy h then _sendHandshake (handshaken t) t else t in
  let t := set_handshaken true t in
  let t := resolveHandshake true t in
  mret (_flushQueue t).

(** [Talker.prototype._respondToMessage].  [this._sent[id]] finds the
    entry stored under the property name of [id], and failing that what
    [_sent] inherits from [Object.prototype]: a stored resolver is called
    and its entry deleted; an inherited member is called too, which raises
    or returns as [Object_prototype] tells, and the [delete] then finds
    nothing to remove.  The source converts [id] to its property name
    before it looks; the stored entries are tried first here, under the
    name the conversion gives when it completes.  Stored names are numerals
    of ids, which no value whose conversion raises prints as
    ([stored_entry_converts]), so in the states a run reaches the order
    makes no difference. *)
Definition _respondToMessage (id : option json) (message : IncomingMessage)
    (t : Talker) : completion Talker :=
  match _sent t !! property_key id with
  | Some resolve =>
      let t := settle resolve (Fulfilled message) t in
      mret (set_sent (delete (property_key id) (_sent t)) t)
  | None =>
      key ← ToPropertyKey id;
      match Object_prototype key with
      | Some CallRaises => Throw "TypeError"
      | Some CallReturns => mret t
      | None => mret t
      end
  end.

(** [Talker.prototype._broadcastMessage]. *)
Definition _broadcastMessage (message : IncomingMessage) (t : Talker) : Talker :=
  if onMessage t then set_delivered (delivered t ++ [message]) t else t.

(** [Talker.Message] and [Talker.IncomingMessage] constructors. *)
Definition new_IncomingMessage (namespace data id : option json) : IncomingMessage :=
  {| im_namespace := namespace; im_data := data; im_type := TALKER_TYPE; im_id := id |}.

(** [Talker.prototype._handleMessage]. *)
Definition _handleMessage (rawObject : json) (t : Talker) : completion Talker :=
  namespace ← member rawObject "namespace";
  data ← member rawObject "data";
  id ← member rawObject "id";
  let message := new_IncomingMessage namespace data id in
  responseId ← member rawObject "responseToId";
  if truthy responseId
  then _respondToMessage responseId message t
  else mret (_broadcastMessage message t).

(** [Talker.prototype._receiveMessage]. *)
Definition _receiveMessage (messageEvent : MessageEvent) (t : Talker) : completion Talker :=
  let object :=
    match JSON_parse (data messageEvent) with
    | Normal o => o
    | Throw _ => JObj []
    end in
  type ← member object "type";
  if negb (_isSafeMessage (source messageEvent) (origin messageEvent) type t)
  then mret t
  else
    h ← member object "handshake";
    isHandshake ← (if truthy h then mret h else member object "handshakeConfirmation");
    if truthy isHandshake then _handleHandshake object t else _handleMessage object t.

(** ** Public methods *)

(** [Talker.OutgoingMessage] constructor: fields of [Talker.Message], then
    [responseToId || null], then the id drawn from the talker. *)
Definition new_OutgoingMessage (namespace data responseToId : option json)
    (t : Talker) : OutgoingMessage * Talker :=
  let rid := match js_or responseToId (Some JNull) with Some j => j | None => JNull end in
  let '(id, t) := _nextId t in
  ({| om_namespace := namespace; om_data := data; om_type := TALKER_TYPE;
      om_responseToId := rid; om_id := id |}, t).

(** [Talker.prototype.send].  The executor of the first promise runs at
    once: it stores the resolver under the message id, pushes the message
    and flushes.  The returned promise is the race with the timer promise;
    its index is the first component of the result. *)
Definition send (namespace data responseToId : option json) (t : Talker) : nat * Talker :=
  let '(message, t) := new_OutgoingMessage namespace data responseToId t in
  let h := length (futures t) in
  let t := set_futures (futures t ++ [Pending]) t in
  let t := set_sent (<[property_key (Some (JNum (om_id message))) := h]> (_sent t)) t in
  let t := set_queue (_queue t ++ [message]) t in
  let t := _flushQueue t in
  (h, t).

(** The callback passed to [setTimeout] in [send] for promise [h]. *)
Definition timer_fires (h : nat) (t : Talker) : Talker :=
  settle h (Rejected TALKER_ERR_TIMEOUT) t.

(** [Talker.IncomingMessage.prototype.respond]. *)
Definition respond (message : IncomingMessage) (data : option json) (t : Talker)
    : nat * Talker :=
  send (Some JNull) data (im_id message) t.

(** The constructor [Talker(remoteWindow, remoteOrigin)]. *)
Definition new_Talker (remoteWindow : winref) (remoteOrigin : option string) : Talker :=
  _sendHandshake false
    {| remoteWindow := remoteWindow; remoteOrigin := remoteOrigin;
       timeout := 3000; handshaken := false; handshake := Pending;
       _id := 0; _queue := []; _sent := ∅; onMessage := false;
       posted := []; delivered := []; futures := [] |}.

(** ** Runs of the instance *)

(** What can happen to an instance after construction: calls of the public
    methods, a [message] event reaching the listener, a timer of [send]
    firing, and the application installing or removing [onMessage]. *)
Inductive event : Type :=
| EvSend (namespace data responseToId : option json)
| EvRespond (message : IncomingMessage) (data : option json)
| EvReceive (messageEvent : MessageEvent)
| EvTimer (h : nat)
| EvOnMessage (installed : bool).

Definition step (e : event) (t : Talker) : completion Talker :=
  match e with
  | EvSend namespace data responseToId => mret (snd (send namespace data responseToId t))
  | EvRespond message data => mret (snd (respond message data t))
  | EvReceive messageEvent => _receiveMessage messageEvent t
  | EvTimer h => mret (timer_fires h t)
  | EvOnMessage installed => mret (set_onMessage installed t)
  end.

(** An exception leaves the listener before anything was written, so the
    instance goes on from the state it had. *)
Definition next (e : event) (t : Talker) : Talker :=
  match step e t with
  | Normal t' => t'
  | Throw _ => t
  end.

Definition run (es : list event) (t : Talker) : Talker := foldl (fun t e => next e t) t es.

Definition reachable (t : Talker) : Prop :=
  exists remoteWindow remoteOrigin es, t = run es (new_Talker remoteWindow remoteOrigin).

(** In every state a run can reach: the queue is empty once the handshake
    is done, the handshake promise is resolved exactly then, and the counter
    is an integer of the exact range. *)
Record invariant (t : Talker) : Prop := {
  inv_queue : handshaken t = true -> _queue t = [];
  inv_signal : handshake t = if handshaken t then Fulfilled true else Pending;
  inv_id : (0 <= _id t <= MAX_EXACT)%Z
}.

(** The ids given to the outgoing messages built along a run, in
    construction order. *)
Fixpoint ids_assigned (es : list event) (t : Talker) : list Z :=
  match es with
  | [] => []
  | e :: es' =>
      match e with
      | EvSend _ _ _ | EvRespond _ _ => fst (_nextId t) :: ids_assigned es' (next e t)
      | _ => ids_assigned es' (next e t)
      end
  end.

Definition builds_message (e : event) : bool :=
  match e with
  | EvSend _ _ _ | EvRespond _ _ => true
  | _ => false
  end.

Definition messages_built (es : list event) : nat :=
  length (List.filter builds_message es).

(** A batch of [send] calls, and the outgoing messages they build. *)
Definition send_args : Type := option json * option json * option json.

Definition send_all (calls : list send_args) (t : Talker) : Talker :=
  foldl (fun t '(namespace, data, responseToId) => snd (send namespace data responseToId t))
        t calls.

Fixpoint envelopes (calls : list send_args) (t : Talker) : list OutgoingMessage :=
  match calls with
  | [] => []
  | (namespace, data, responseToId) :: rest =>
      fst (new_OutgoingMessage namespace data responseToId t)
        :: envelopes rest (snd (send namespace data responseToId t))
  end.

(** The serialised form of an outgoing message, and the [postMessage] calls
    that transmitting a list of them makes. *)
Definition wire (m : OutgoingMessage) : json := JSON_stringify (toJSON m).

Definition transmissions (t : Talker) (q : list OutgoingMessage) : list (json * string) :=
  map (fun m => (wire m, default "" (remoteOrigin t))) q.

Definition handshake_request : json :=
  JObj [("type", JStr TALKER_TYPE); ("handshake", JBool true)].

Definition handshake_confirmation : json :=
  JObj [("type", JStr TALKER_TYPE); ("handshakeConfirmation", JBool true)].

(** An event whose payload parses to the object with own properties
    [fields] and passes [_isSafeMessage] on [t]. *)
Definition accepted (messageEvent : MessageEvent) (fields : list (string * json))
    (t : Talker) : Prop :=
  data messageEvent = Parses (JObj fields) /\
  _isSafeMessage (source messageEvent) (origin messageEvent) (assoc "type" fields) t = true.

(** The flag tested by [_receiveMessage] to tell handshakes from messages. *)
Definition isHandshake (fields : list (string * json)) : bool :=
  truthy (js_or (assoc "handshake" fields) (assoc "handshakeConfirmation" fields)).

(** ** Sample instances and events *)

Definition a_example : string := "https://a.example".

(** A freshly built instance talking to window 1 at [a_example], with an
    [onMessage] callback installed. *)
Definition fresh_talker : Talker :=
  set_onMessage true (new_Talker (WRef 1) (Some a_example)).

Definition event_from_remote (object : json) : MessageEvent :=
  {| source := WRef 1; origin := a_example; data := Parses object |}.

Definition request_event : MessageEvent := event_from_remote handshake_request.
Definition confirmation_event : MessageEvent := event_from_remote handshake_confirmation.

(** The same instance once the remote's handshake request has arrived. *)
Definition established_talker : Talker := next (EvReceive request_event) fresh_talker.

(** An instance built without a remote window. *)
Definition unconfigured_talker : Talker := new_Talker WNull (Some "*").

(** The own properties of a response to the message of id [responseToId]. *)
Definition response_fields (responseToId : json) : list (string * json) :=
  [ ("id", JNum 5); ("responseToId", responseToId); ("namespace", JNull);
    ("data", JStr "late"); ("type", JStr TALKER_TYPE) ].

(** An event whose data is not JSON text. *)
Definition garbled_event : MessageEvent :=
  {| source := WRef 1; origin := a_example; data := Unparsable |}.

(** A handshake request delivered with no source window, as a scripted
    [MessageEvent] has it. *)
Definition sourceless_request : MessageEvent :=
  {| source := WNull; origin := "https://b.example"; data := Parses handshake_request |}.

Definition hello : send_args := (Some (JStr "ns"), Some (JStr "hello"), None).

(** A request sent on the established instance, its timer firing, and the
    response that comes too late. *)
Definition awaiting_talker : Talker := next (EvSend (Some (JStr "ns")) None None) established_talker.
Definition expired_talker : Talker := next (EvTimer 0) awaiting_talker.
Definition late_response : MessageEvent := event_from_remote (JObj (response_fields (JNum 1))).

(** An incoming message whose id is 0. *)
Definition zero_id_message : IncomingMessage :=
  new_IncomingMessage (Some (JStr "ns")) None (Some (JNum 0)).

(** An instance on which [2^53] messages have been sent. *)
Definition plain_send : event := EvSend None None None.

Definition worn_talker : Talker :=
  run (replicate (Z.to_nat MAX_EXACT) plain_send) (new_Talker (WRef 1) (Some a_example)).


(** ** Predicates on states *)

(** A posted payload carries the protocol tag and goes to the remote
    origin of the instance. *)
Definition well_posted (t : Talker) (p : json * string) : Prop :=
  member p.1 "type" = Normal (Some (JStr TALKER_TYPE)) /\
  remoteOrigin t = Some p.2 /\ p.2 <> "".

(** The posts of an instance are well formed as long as the queued messages
    carry the protocol tag, which the constructor of outgoing messages
    sees to. *)
Definition posts_invariant (t : Talker) : Prop :=
  Forall (fun m => om_type m = TALKER_TYPE) (_queue t) /\ Forall (well_posted t) (posted t).

(** Every resolver kept in [_sent] belongs to a promise [send] has handed
    out. *)
Definition resolvers_in_range (t : Talker) : Prop :=
  map_Forall (fun _ h => h < length (futures t)) (_sent t).

(** Every key of [_sent] is the name of an id the counter has given. *)
Definition keys_assigned (t : Talker) : Prop :=
  forall key, is_Some (_sent t !! key) ->
    exists i : Z, (1 <= i <= _id t)%Z /\ key = ToString (JNum i).

(** Strings made of decimal digits only, as the names of ids are. *)
Definition is_digit (c : Ascii.ascii) : bool :=
  bool_decide (c ∈ ["0"; "1"; "2"; "3"; "4"; "5"; "6"; "7"; "8"; "9"]%char).

Fixpoint all_digits (s : string) : bool :=
  match s with
  | "" => true
  | String c rest => is_digit c && all_digits rest
  end.

(** A message event from another origin, and a plain message from the
    remote. *)
Definition foreign_event : MessageEvent :=
  {| source := WRef 1; origin := "https://b.example";
     data := Parses (JObj [("type", JStr TALKER_TYPE); ("id", JNum 1)]) |}.

Definition plain_fields : list (string * json) :=
  [ ("id", JNum 4); ("responseToId", JNull); ("namespace", JStr "ns");
    ("data", JStr "ping"); ("type", JStr TALKER_TYPE) ].

Definition plain_event : MessageEvent := event_from_remote (JObj plain_fields).

(** * Properties *)

(** ** Records and frames *)

Lemma Talker_eq (t1 t2 : Talker) :
  remoteWindow t1 = remoteWindow t2 -> remoteOrigin t1 = remoteOrigin t2 ->
  timeout t1 = timeout t2 -> handshaken t1 = handshaken t2 ->
  handshake t1 = handshake t2 -> _id t1 = _id t2 -> _queue t1 = _queue t2 ->
  _sent t1 = _sent t2 -> onMessage t1 = onMessage t2 -> posted t1 = posted t2 ->
  delivered t1 = delivered t2 -> futures t1 = futures t2 ->
  t1 = t2.
Proof.
  destruct t1, t2; simpl; intros; subst; reflexivity.
Qed.

Ltac talker_eq := apply Talker_eq; simpl; try reflexivity.

Lemma configured_iff (t : Talker) :
  configured t = true <->
  exists w o, remoteWindow t = WRef w /\ remoteOrigin t = Some o /\ o <> "".
Proof.
  unfold configured, window_truthy, origin_truthy. split.
  - destruct (remoteWindow t) as [| |w]; try discriminate.
    destruct (remoteOrigin t) as [o|]; try discriminate.
    simpl. intros H. exists w, o. repeat split.
    intros ->. discriminate.
  - intros (w & o & -> & -> & Ho). simpl.
    destruct (String.eqb_spec o ""); [contradiction | reflexivity].
Qed.

Lemma _postMessage_posted (data : json) (t : Talker) :
  posted (_postMessage data t) =
  posted t ++ (if configured t then [(data, default "" (remoteOrigin t))] else []).
Proof.
  unfold _postMessage. destruct (configured t); simpl; [reflexivity|].
  symmetry. apply app_nil_r.
Qed.

Lemma _postMessage_unconfigured (data : json) (t : Talker) :
  configured t = false -> _postMessage data t = t.
Proof. unfold _postMessage. intros ->. reflexivity. Qed.

Lemma _postMessage_eq (data : json) (t : Talker) :
  _postMessage data t =
  set_posted (posted t ++
              (if configured t then [(data, default "" (remoteOrigin t))] else [])) t.
Proof.
  unfold _postMessage. destruct (configured t); [reflexivity|].
  talker_eq. symmetry. apply app_nil_r.
Qed.

Lemma _sendHandshake_eq (confirmation : bool) (t : Talker) :
  _sendHandshake confirmation t =
  _postMessage (if confirmation then handshake_confirmation else handshake_request) t.
Proof. destruct confirmation; reflexivity. Qed.

(** ** The flush loop *)

Lemma flush_from_pending (q : list OutgoingMessage) (t : Talker) :
  handshaken t = false -> flush_from q t = t.
Proof. intros H. destruct q; simpl; rewrite H; reflexivity. Qed.

Lemma flush_from_nonempty (q : list OutgoingMessage) :
  forall t : Talker,
    handshaken t = true -> q <> [] ->
    flush_from q t =
    set_queue [] (set_posted
      (posted t ++ (if configured t then transmissions t q else [])) t).
Proof.
  induction q as [|m rest IH]; intros t Hh Hne; [contradiction|].
  cbn [flush_from]. rewrite Hh.
  destruct rest as [|m' rest'].
  - cbn [length Nat.ltb Nat.leb]. rewrite _postMessage_eq. talker_eq.
  - change (0 <? length (m' :: rest'))%nat with true. cbv iota.
    rewrite IH; [| rewrite _postMessage_eq; exact Hh | discriminate].
    rewrite _postMessage_eq. talker_eq.
    unfold configured, transmissions. simpl.
    destruct (window_truthy (remoteWindow t) && origin_truthy (remoteOrigin t)).
    + rewrite <- app_assoc. reflexivity.
    + rewrite !app_nil_r. reflexivity.
Qed.

Lemma _flushQueue_eq (t : Talker) :
  _flushQueue t =
  if handshaken t
  then set_queue [] (set_posted
         (posted t ++ (if configured t then transmissions t (_queue t) else [])) t)
  else t.
Proof.
  unfold _flushQueue. destruct (handshaken t) eqn:Hh.
  - destruct (_queue t) as [|m q] eqn:Hq.
    + simpl. rewrite Hh. talker_eq; [congruence|].
      destruct (configured t); simpl; symmetry; apply app_nil_r.
    + rewrite flush_from_nonempty by (auto; discriminate). reflexivity.
  - apply flush_from_pending, Hh.
Qed.

(** ** The receive path *)

Ltac unfold_bind := unfold mbind, mret, completion_bind, completion_ret.

Lemma member_object (fields : list (string * json)) (k : string) :
  member (JObj fields) k = Normal (assoc k fields).
Proof. reflexivity. Qed.

(** An accepted event is dispatched on the handshake flags. *)
Lemma receive_accepted (messageEvent : MessageEvent) (fields : list (string * json))
    (t : Talker) :
  accepted messageEvent fields t ->
  _receiveMessage messageEvent t =
  if isHandshake fields
  then _handleHandshake (JObj fields) t
  else _handleMessage (JObj fields) t.
Proof.
  intros [Hdata Hsafe]. unfold _receiveMessage, isHandshake, js_or.
  rewrite Hdata. unfold_bind. simpl. rewrite Hsafe. simpl.
  destruct (truthy (assoc "handshake" fields)) eqn:Hh; simpl.
  - rewrite Hh. reflexivity.
  - reflexivity.
Qed.

(** An event that parses to something other than [null] and fails the
    filter leaves the instance as it was. *)
Lemma receive_rejected (messageEvent : MessageEvent) (object : json)
    (type : option json) (t : Talker) :
  data messageEvent = Parses object ->
  member object "type" = Normal type ->
  _isSafeMessage (source messageEvent) (origin messageEvent) type t = false ->
  _receiveMessage messageEvent t = Normal t.
Proof.
  intros Hdata Hty Hsafe. unfold _receiveMessage.
  rewrite Hdata. simpl. rewrite Hty. unfold_bind. rewrite Hsafe. reflexivity.
Qed.

(** The filter is the conjunction of the three checks. *)
Lemma _isSafeMessage_iff (source : winref) (origin : string) (type : option json)
    (t : Talker) :
  _isSafeMessage source origin type t = true <->
  source = remoteWindow t /\
  (remoteOrigin t = Some "*" \/ Some origin = remoteOrigin t) /\
  type = Some (JStr TALKER_TYPE).
Proof.
  unfold _isSafeMessage, strict_eq_string.
  rewrite !andb_true_iff, orb_true_iff, !bool_decide_eq_true.
  split.
  - intros [[Hs Ho] Ht]. repeat split; try assumption.
    destruct type as [[| | |s| |]|]; try discriminate.
    apply String.eqb_eq in Ht. subst. reflexivity.
  - intros (Hs & Ho & ->). split; [split; assumption|].
    apply String.eqb_refl.
Qed.

(** ** Inbound filtering *)

Lemma receive_unparsable (messageEvent : MessageEvent) (t : Talker) (e : string) :
  JSON_parse (data messageEvent) = Throw e ->
  _receiveMessage messageEvent t = Normal t.
Proof.
  intros Hparse. unfold _receiveMessage. rewrite Hparse. simpl. unfold_bind.
  replace (_isSafeMessage (source messageEvent) (origin messageEvent) None t)
    with false; [reflexivity|].
  unfold _isSafeMessage. simpl. symmetry. apply andb_false_r.
Qed.

(** When [JSON.parse] raises on the payload of an inbound event, the
    receive handler completes normally: the payload is replaced by the
    empty object, whose missing [type] fails the filter, and the instance is
    returned exactly as it was (no callback, no state change). *)
Lemma unparsable_payload_is_discarded (messageEvent : MessageEvent) (t : Talker)
    (e : string) :
  JSON_parse (data messageEvent) = Throw e ->
  member (JObj []) "type" = Normal undefined /\
  _isSafeMessage (source messageEvent) (origin messageEvent) undefined t = false /\
  _receiveMessage messageEvent t = Normal t.
Proof.
  intros Hparse.
  assert (Hsafe : _isSafeMessage (source messageEvent) (origin messageEvent)
                    undefined t = false).
  { unfold _isSafeMessage. simpl. apply andb_false_r. }
  repeat split; [exact Hsafe|].
  eapply receive_unparsable, Hparse.
Qed.

Lemma unparsable_payload_is_discarded_witness :
  JSON_parse (data garbled_event) = Throw "SyntaxError" /\
  _receiveMessage garbled_event fresh_talker = Normal fresh_talker.
Proof.
  split; [reflexivity|].
  apply (unparsable_payload_is_discarded garbled_event fresh_talker "SyntaxError").
  reflexivity.
Defined.

(** C8, at the payload [null]: the text [null] does not parse as an
    envelope, yet [JSON.parse] returns (the value [null]) instead of
    raising, so the [catch] that would put the empty object in its place is
    not taken, and the read of [object.type] raises a [TypeError] that
    leaves the receive handler. *)
Theorem null_payload_is_not_absorbed (source : winref) (origin : string) (t : Talker) :
  JSON_parse (Parses JNull) = Normal JNull /\
  member JNull "type" = Throw "TypeError" /\
  _receiveMessage {| source := source; origin := origin; data := Parses JNull |} t
  = Throw "TypeError".
Proof. repeat split. Qed.

(** C2, at the payload [null]: [JSON.parse] returns [null] without raising,
    and the read of [object.type] that feeds the filter raises a
    [TypeError] out of the receive handler, whatever the source and origin
    of the event and whatever the state of the instance. *)
Theorem null_payload_raises (source : winref) (origin : string) (t : Talker) :
  _receiveMessage {| source := source; origin := origin; data := Parses JNull |} t
  = Throw "TypeError".
Proof. reflexivity. Qed.

(** Every payload other than [null] goes through the filter: the event is
    accepted exactly when the three checks hold ([_isSafeMessage_iff]), and
    a rejected one changes nothing. *)
Lemma receive_filter (messageEvent : MessageEvent) (object : json) (t : Talker) :
  data messageEvent = Parses object -> object <> JNull ->
  exists type, member object "type" = Normal type /\
    (_isSafeMessage (source messageEvent) (origin messageEvent) type t = false ->
     _receiveMessage messageEvent t = Normal t) /\
    (_isSafeMessage (source messageEvent) (origin messageEvent) type t = true ->
     exists fields, object = JObj fields /\ accepted messageEvent fields t).
Proof.
  intros Hdata Hnull.
  destruct object as [|b|n|s|items|fields]; try contradiction;
    try (exists None; split; [reflexivity|]; split;
         [ intros H; eapply receive_rejected; eauto; reflexivity
         | unfold _isSafeMessage; simpl; rewrite andb_false_r; discriminate ]).
  exists (assoc "type" fields). split; [reflexivity|]. split.
  - intros H. eapply receive_rejected; eauto.
  - intros H. exists fields. split; [reflexivity|]. split; assumption.
Qed.

Lemma _isSafeMessage_same_remote (source : winref) (origin : string)
    (type : option json) (t t' : Talker) :
  remoteWindow t' = remoteWindow t -> remoteOrigin t' = remoteOrigin t ->
  _isSafeMessage source origin type t' = _isSafeMessage source origin type t.
Proof. unfold _isSafeMessage. intros -> ->. reflexivity. Qed.

Lemma settle_frame (h : nat) (outcome : promise IncomingMessage) (t : Talker) :
  remoteWindow (settle h outcome t) = remoteWindow t /\
  remoteOrigin (settle h outcome t) = remoteOrigin t /\
  handshaken (settle h outcome t) = handshaken t /\
  handshake (settle h outcome t) = handshake t /\
  _id (settle h outcome t) = _id t /\
  _queue (settle h outcome t) = _queue t /\
  _sent (settle h outcome t) = _sent t /\
  onMessage (settle h outcome t) = onMessage t /\
  posted (settle h outcome t) = posted t /\
  delivered (settle h outcome t) = delivered t.
Proof.
  unfold settle. destruct (futures t !! h) as [[| |]|]; simpl; repeat split.
Qed.

Lemma settle_pending (h : nat) (outcome : promise IncomingMessage) (t : Talker) :
  futures t !! h = Some Pending ->
  futures (settle h outcome t) !! h = Some outcome.
Proof.
  intros H. unfold settle. rewrite H. simpl.
  apply list_lookup_insert_eq. eapply lookup_lt_Some, H.
Qed.

Lemma settle_settled (h : nat) (outcome : promise IncomingMessage) (t : Talker) :
  futures t !! h <> Some Pending -> settle h outcome t = t.
Proof.
  intros H. unfold settle. destruct (futures t !! h) as [[| |]|]; congruence.
Qed.

(** What [_handleMessage] does with the parsed object of an accepted,
    non-handshake event. *)
Lemma _handleMessage_object (fields : list (string * json)) (t : Talker) :
  _handleMessage (JObj fields) t =
  let message := new_IncomingMessage (assoc "namespace" fields) (assoc "data" fields)
                                     (assoc "id" fields) in
  if truthy (assoc "responseToId" fields)
  then _respondToMessage (assoc "responseToId" fields) message t
  else Normal (_broadcastMessage message t).
Proof. reflexivity. Qed.

(** With a stored entry the resolver is called and the entry deleted. *)
Lemma _respondToMessage_live (id : option json) (message : IncomingMessage)
    (t : Talker) (resolve : nat) :
  _sent t !! property_key id = Some resolve ->
  _respondToMessage id message t =
  Normal (set_sent (delete (property_key id)
                      (_sent (settle resolve (Fulfilled message) t)))
            (settle resolve (Fulfilled message) t)).
Proof. intros H. unfold _respondToMessage. rewrite H. reflexivity. Qed.

(** Without one, nothing is written: the call returns the instance as it
    was, or raises. *)
Lemma _respondToMessage_unmatched (id : option json) (message : IncomingMessage)
    (t : Talker) :
  _sent t !! property_key id = None ->
  _respondToMessage id message t = Normal t \/
  _respondToMessage id message t = Throw "TypeError".
Proof.
  intros H. unfold _respondToMessage. rewrite H. unfold_bind.
  destruct (ToPropertyKey id) as [key|e] eqn:Hkey.
  - destruct (Object_prototype key) as [[|]|]; auto.
  - right. destruct id as [j|]; [|discriminate]. cbn [ToPropertyKey] in Hkey.
    destruct (conversion_raises j); congruence.
Qed.

(** The state after [_respondToMessage], whether it returned or raised. *)
Lemma _respondToMessage_state (id : option json) (message : IncomingMessage)
    (t : Talker) :
  match _respondToMessage id message t with
  | Normal t' => t'
  | Throw _ => t
  end =
  match _sent t !! property_key id with
  | Some resolve =>
      set_sent (delete (property_key id)
                  (_sent (settle resolve (Fulfilled message) t)))
        (settle resolve (Fulfilled message) t)
  | None => t
  end.
Proof.
  destruct (_sent t !! property_key id) as [resolve|] eqn:H.
  - rewrite (_respondToMessage_live _ _ _ _ H). reflexivity.
  - destruct (_respondToMessage_unmatched id message t H) as [-> | ->]; reflexivity.
Qed.

(** The state after [_handleMessage] on a parsed object. *)
Lemma _handleMessage_state (fields : list (string * json)) (t : Talker) :
  match _handleMessage (JObj fields) t with
  | Normal t' => t'
  | Throw _ => t
  end =
  let message := new_IncomingMessage (assoc "namespace" fields) (assoc "data" fields)
                                     (assoc "id" fields) in
  if truthy (assoc "responseToId" fields)
  then match _sent t !! property_key (assoc "responseToId" fields) with
       | Some resolve =>
           set_sent (delete (property_key (assoc "responseToId" fields))
                       (_sent (settle resolve (Fulfilled message) t)))
             (settle resolve (Fulfilled message) t)
       | None => t
       end
  else _broadcastMessage message t.
Proof.
  rewrite _handleMessage_object. cbv zeta.
  destruct (truthy (assoc "responseToId" fields)); [|reflexivity].
  apply _respondToMessage_state.
Qed.

(** An accepted response without a stored entry, whose id converts to a
    name that [Object.prototype] either lacks or answers with a method that
    returns, is dropped: the handler returns the instance unchanged.  A
    duplicate of a numbered response is such a message. *)
Lemma unmatched_response_dropped (messageEvent : MessageEvent)
    (fields : list (string * json)) (responseId : json) (t : Talker) :
  accepted messageEvent fields t ->
  isHandshake fields = false ->
  assoc "responseToId" fields = Some responseId ->
  truthy (Some responseId) = true ->
  conversion_raises responseId = false ->
  Object_prototype (ToString responseId) <> Some CallRaises ->
  _sent t !! ToString responseId = None ->
  _receiveMessage messageEvent t = Normal t.
Proof.
  intros Hacc Hnot Hrid Htruthy Hconv Hproto Hnone.
  rewrite (receive_accepted _ _ _ Hacc), Hnot, _handleMessage_object.
  cbv zeta. rewrite Hrid, Htruthy. unfold _respondToMessage.
  cbn [property_key ToPropertyKey]. rewrite Hnone, Hconv. unfold_bind.
  destruct (Object_prototype (ToString responseId)) as [[|]|]; congruence.
Qed.

(** C10, at a [responseToId] that names a member [_sent] inherits: an
    accepted, non-handshake message whose truthy [responseToId] has no
    stored entry is not dropped silently when its property name is
    [__proto__], [__defineGetter__] or [__defineSetter__], or when its
    conversion to a property name raises: [_respondToMessage] finds the
    inherited member (or fails to convert) and a [TypeError] leaves the
    receive handler.  No promise is settled and [onMessage] is not
    called. *)
Theorem inherited_member_response_raises (messageEvent : MessageEvent)
    (fields : list (string * json)) (responseId : json) (t : Talker) :
  accepted messageEvent fields t ->
  isHandshake fields = false ->
  assoc "responseToId" fields = Some responseId ->
  truthy (Some responseId) = true ->
  _sent t !! ToString responseId = None ->
  conversion_raises responseId = true \/
  Object_prototype (ToString responseId) = Some CallRaises ->
  _receiveMessage messageEvent t = Throw "TypeError".
Proof.
  intros Hacc Hnot Hrid Htruthy Hnone Hraise.
  rewrite (receive_accepted _ _ _ Hacc), Hnot, _handleMessage_object.
  cbv zeta. rewrite Hrid, Htruthy. unfold _respondToMessage.
  cbn [property_key ToPropertyKey]. rewrite Hnone. unfold_bind.
  destruct (conversion_raises responseId); [reflexivity|].
  destruct Hraise as [Hraise | ->]; [discriminate | reflexivity].
Qed.

Lemma inherited_member_response_raises_witness :
  accepted (event_from_remote (JObj (response_fields (JStr "__proto__"))))
           (response_fields (JStr "__proto__")) established_talker /\
  _sent established_talker !! "__proto__" = None /\
  _receiveMessage (event_from_remote (JObj (response_fields (JStr "__proto__"))))
                  established_talker = Throw "TypeError".
Proof.
  assert (Hacc : accepted (event_from_remote (JObj (response_fields (JStr "__proto__"))))
                   (response_fields (JStr "__proto__")) established_talker).
  { split; reflexivity. }
  split; [exact Hacc|]. split; [reflexivity|].
  apply (inherited_member_response_raises _ (response_fields (JStr "__proto__"))
           (JStr "__proto__") established_talker Hacc); try reflexivity.
  right. reflexivity.
Defined.

(** ** Effects of the handlers and of [send], in closed form *)

Lemma resolveHandshake_frame (v : bool) (t : Talker) :
  resolveHandshake v t = set_handshake (match handshake t with
                                        | Pending => Fulfilled v
                                        | p => p
                                        end) t.
Proof.
  unfold resolveHandshake. destruct (handshake t) eqn:H; talker_eq; congruence.
Qed.

Lemma _handleHandshake_object (fields : list (string * json)) (t : Talker) :
  _handleHandshake (JObj fields) t =
  Normal (_flushQueue (resolveHandshake true (set_handshaken true
            (if truthy (assoc "handshake" fields)
             then _sendHandshake (handshaken t) t else t)))).
Proof. reflexivity. Qed.

Lemma send_eq (namespace data responseToId : option json) (t : Talker) :
  send namespace data responseToId t =
  let message := fst (new_OutgoingMessage namespace data responseToId t) in
  (length (futures t),
   _flushQueue
     (set_queue (_queue t ++ [message])
        (set_sent (<[ToString (JNum (om_id message)) := length (futures t)]> (_sent t))
           (set_futures (futures t ++ [Pending])
              (set_id (js_add1 (_id t)) t))))).
Proof. reflexivity. Qed.

Lemma new_OutgoingMessage_id (namespace data responseToId : option json) (t : Talker) :
  om_id (fst (new_OutgoingMessage namespace data responseToId t)) = fst (_nextId t).
Proof. reflexivity. Qed.

Ltac effects :=
  repeat first
    [ rewrite _flushQueue_eq
    | rewrite resolveHandshake_frame
    | rewrite _sendHandshake_eq
    | rewrite _postMessage_eq
    | progress cbn [remoteWindow remoteOrigin timeout handshaken handshake _id _queue
                    _sent onMessage posted delivered futures
                    set_handshaken set_handshake set_id set_queue set_sent
                    set_onMessage set_posted set_delivered set_futures fst snd] ].

(** The three ways a [message] event can go. *)
Lemma receive_cases (messageEvent : MessageEvent) (t : Talker) :
  (data messageEvent = Parses JNull /\ _receiveMessage messageEvent t = Throw "TypeError") \/
  _receiveMessage messageEvent t = Normal t \/
  (exists fields, accepted messageEvent fields t /\
     _receiveMessage messageEvent t =
     if isHandshake fields
     then _handleHandshake (JObj fields) t
     else _handleMessage (JObj fields) t).
Proof.
  destruct (data messageEvent) as [|object] eqn:Hdata.
  - right; left. apply (receive_unparsable _ _ "SyntaxError"). rewrite Hdata. reflexivity.
  - destruct object as [|b|n|s|items|fields];
      try (right; left; eapply receive_rejected; eauto;
           unfold _isSafeMessage; simpl; apply andb_false_r).
    + left. split; [reflexivity|]. unfold _receiveMessage. rewrite Hdata. reflexivity.
    + destruct (_isSafeMessage (source messageEvent) (origin messageEvent)
                  (assoc "type" fields) t) eqn:Hsafe.
      * right; right. exists fields.
        assert (Hacc : accepted messageEvent fields t) by (split; assumption).
        split; [exact Hacc|]. apply receive_accepted, Hacc.
      * right; left. eapply receive_rejected; eauto.
Qed.

(** The remote window and origin are fixed at construction. *)
Lemma next_same_remote (e : event) (t : Talker) :
  remoteWindow (next e t) = remoteWindow t /\ remoteOrigin (next e t) = remoteOrigin t.
Proof.
  unfold next, step, respond.
  destruct e as [ns d rid|m d|ev|h|b]; unfold_bind.
  - rewrite send_eq. cbv zeta. effects. destruct (handshaken t); split; reflexivity.
  - rewrite send_eq. cbv zeta. effects. destruct (handshaken t); split; reflexivity.
  - destruct (receive_cases ev t) as [[_ ->]|[->|(fields & Hacc & ->)]];
      try (split; reflexivity).
    destruct (isHandshake fields).
    + rewrite _handleHandshake_object.
      destruct (truthy (assoc "handshake" fields)); effects; split; reflexivity.
    + rewrite _handleMessage_state. cbv zeta.
      destruct (truthy (assoc "responseToId" fields)).
      * destruct (_sent t !! _); effects; split; try reflexivity; apply settle_frame.
      * unfold _broadcastMessage. destruct (onMessage t); split; reflexivity.
  - split; apply settle_frame.
  - split; reflexivity.
Qed.

(** Case analysis of one event, with the effects of the handlers rewritten
    to their closed forms. *)
Ltac next_cases e t :=
  unfold next, step, respond;
  destruct e as [ns d rid|m d|ev|h|b]; unfold_bind;
  [ rewrite send_eq; cbv zeta; effects
  | rewrite send_eq; cbv zeta; effects
  | destruct (receive_cases ev t) as [[_ ->]|[->|(fields & Hacc & ->)]];
    [ | | destruct (isHandshake fields);
          [ rewrite _handleHandshake_object; effects
          | rewrite _handleMessage_state; cbv zeta;
            unfold _broadcastMessage ] ]
  | unfold timer_fires
  | ].

Lemma configured_same_remote (t t' : Talker) :
  remoteWindow t' = remoteWindow t -> remoteOrigin t' = remoteOrigin t ->
  configured t' = configured t.
Proof. unfold configured. intros -> ->. reflexivity. Qed.

Lemma next_configured (e : event) (t : Talker) : configured (next e t) = configured t.
Proof. apply configured_same_remote; apply next_same_remote. Qed.

Lemma run_configured (es : list event) :
  forall t : Talker, configured (run es t) = configured t.
Proof.
  unfold run. induction es as [|e es IH]; intros t; simpl; [reflexivity|].
  rewrite IH. apply next_configured.
Qed.

Lemma next_posted_unconfigured (e : event) (t : Talker) :
  configured t = false -> posted (next e t) = posted t.
Proof.
  intros Hc. next_cases e t; try reflexivity.
  - destruct (handshaken t); effects; [|reflexivity].
    unfold configured in *; simpl. rewrite Hc. apply app_nil_r.
  - destruct (handshaken t); effects; [|reflexivity].
    unfold configured in *; simpl. rewrite Hc. apply app_nil_r.
  - destruct (truthy (assoc "handshake" fields)); effects;
      unfold configured in *; simpl; rewrite ?Hc; simpl; rewrite ?Hc, ?app_nil_r;
      reflexivity.
  - destruct (truthy (assoc "responseToId" fields)).
    + destruct (_sent t !! _); effects; [apply settle_frame | reflexivity].
    + destruct (onMessage t); reflexivity.
  - apply settle_frame.
Qed.

Lemma run_posted_unconfigured (es : list event) :
  forall t : Talker, configured t = false -> posted (run es t) = posted t.
Proof.
  unfold run. induction es as [|e es IH]; intros t Hc; simpl; [reflexivity|].
  rewrite IH by (rewrite next_configured; exact Hc).
  apply next_posted_unconfigured, Hc.
Qed.

(** ** The transport guard *)

(** C9: [postMessage] is called on the remote window exactly when
    [remoteWindow] is a window and [remoteOrigin] is a non-empty string.
    When either is missing, nothing is ever transmitted: [_postMessage] and
    [_sendHandshake] return the instance untouched, the constructor, a flush,
    [send], the handling of an accepted handshake and every run of events
    leave the list of posts as it was, and these calls complete normally. *)
Theorem post_only_when_configured (data : json) (t : Talker) :
  (configured t = true <->
   exists w o, remoteWindow t = WRef w /\ remoteOrigin t = Some o /\ o <> "") /\
  posted (_postMessage data t) =
    posted t ++ (if configured t then [(data, default "" (remoteOrigin t))] else []) /\
  (forall w o, window_truthy w && origin_truthy o = false -> posted (new_Talker w o) = []) /\
  (configured t = false ->
   _postMessage data t = t /\
   (forall confirmation, _sendHandshake confirmation t = t) /\
   posted (_flushQueue t) = posted t /\
   (forall namespace payload responseToId,
       posted (snd (send namespace payload responseToId t)) = posted t) /\
   (forall messageEvent fields,
       accepted messageEvent fields t -> isHandshake fields = true ->
       exists t', _receiveMessage messageEvent t = Normal t' /\ posted t' = posted t) /\
   (forall es, posted (run es t) = posted t)).
Proof.
  split; [apply configured_iff|].
  split; [apply _postMessage_posted|].
  split.
  { intros w o H. unfold new_Talker. rewrite _sendHandshake_eq, _postMessage_eq.
    unfold configured. simpl. rewrite H. reflexivity. }
  intros Hc.
  split; [apply _postMessage_unconfigured, Hc|].
  split; [intros c; rewrite _sendHandshake_eq; apply _postMessage_unconfigured, Hc|].
  split.
  { rewrite _flushQueue_eq. destruct (handshaken t); [|reflexivity].
    simpl. rewrite Hc. apply app_nil_r. }
  split.
  { intros ns d rid. apply (next_posted_unconfigured (EvSend ns d rid) t Hc). }
  split.
  { intros ev fields Hacc Hhs.
    pose proof (next_posted_unconfigured (EvReceive ev) t Hc) as Hnext.
    unfold next, step in Hnext.
    rewrite (receive_accepted _ _ _ Hacc), Hhs, _handleHandshake_object in *.
    eexists. split; [reflexivity|]. exact Hnext. }
  intros es. apply run_posted_unconfigured, Hc.
Qed.

Lemma post_only_when_configured_witness :
  configured unconfigured_talker = false /\
  _postMessage handshake_request unconfigured_talker = unconfigured_talker /\
  posted (run [EvSend None None None;
               EvReceive {| source := WNull; origin := ""; data := Parses handshake_request |}]
              unconfigured_talker) = [].
Proof.
  split; [reflexivity|].
  destruct (post_only_when_configured handshake_request unconfigured_talker)
    as (_ & _ & _ & H).
  destruct (H eq_refl) as (H1 & _ & _ & _ & _ & H6).
  split; [exact H1|]. apply H6.
Defined.

(** ** Invariants of runs *)

Lemma js_add1_ge (n : Z) : (n <= js_add1 n)%Z.
Proof. unfold js_add1. destruct (n <? MAX_EXACT)%Z; lia. Qed.

Lemma js_add1_exact (n : Z) : (n < MAX_EXACT)%Z -> js_add1 n = (n + 1)%Z.
Proof.
  unfold js_add1. intros H. destruct (Z.ltb_spec n MAX_EXACT); [reflexivity|lia].
Qed.

Lemma js_add1_saturated : js_add1 MAX_EXACT = MAX_EXACT.
Proof. reflexivity. Qed.

Lemma js_add1_range (n : Z) :
  (0 <= n <= MAX_EXACT)%Z -> (1 <= js_add1 n <= MAX_EXACT)%Z.
Proof.
  unfold js_add1. intros H. destruct (Z.ltb_spec n MAX_EXACT); [lia|].
  assert (0 < MAX_EXACT)%Z by reflexivity. lia.
Qed.

(** Only the construction of an outgoing message moves the counter. *)
Lemma next_id (e : event) (t : Talker) :
  _id (next e t) = if builds_message e then js_add1 (_id t) else _id t.
Proof.
  next_cases e t; simpl; try reflexivity.
  - destruct (handshaken t); reflexivity.
  - destruct (handshaken t); reflexivity.
  - destruct (truthy (assoc "handshake" fields)); effects; reflexivity.
  - destruct (truthy (assoc "responseToId" fields)).
    + destruct (_sent t !! _); effects; [apply settle_frame | reflexivity].
    + destruct (onMessage t); reflexivity.
  - apply settle_frame.
Qed.

Lemma next_handshaken (e : event) (t : Talker) :
  handshaken t = true -> handshaken (next e t) = true.
Proof.
  intros Hh. next_cases e t; simpl; try assumption.
  - rewrite Hh. exact Hh.
  - rewrite Hh. exact Hh.
  - destruct (truthy (assoc "handshake" fields)); effects; reflexivity.
  - destruct (truthy (assoc "responseToId" fields)).
    + destruct (_sent t !! _); effects; [|assumption].
      rewrite <- Hh. apply settle_frame.
    + destruct (onMessage t); assumption.
  - rewrite <- Hh. apply settle_frame.
Qed.

Lemma invariant_new (remoteWindow : winref) (remoteOrigin : option string) :
  invariant (new_Talker remoteWindow remoteOrigin).
Proof.
  unfold new_Talker. rewrite _sendHandshake_eq, _postMessage_eq.
  split; simpl; try reflexivity; try discriminate.
  split; [lia | discriminate].
Qed.

(** How one event moves the handshake flag, the handshake promise and the
    queue. *)
Lemma next_handshake_state (e : event) (t : Talker) :
  (handshaken (next e t) = handshaken t /\ handshake (next e t) = handshake t /\
   (_queue (next e t) = _queue t \/
    (builds_message e = true /\
     (if handshaken t then _queue (next e t) = []
      else exists m, _queue (next e t) = _queue t ++ [m])))) \/
  (handshaken (next e t) = true /\ _queue (next e t) = [] /\
   handshake (next e t) = match handshake t with Pending => Fulfilled true | p => p end).
Proof.
  next_cases e t.
  - left. destruct (handshaken t) eqn:Hh; simpl; rewrite ?Hh;
      (split; [reflexivity|]; split; [reflexivity|]; right; split; eauto).
  - left. destruct (handshaken t) eqn:Hh; simpl; rewrite ?Hh;
      (split; [reflexivity|]; split; [reflexivity|]; right; split; eauto).
  - left. repeat split. left. reflexivity.
  - left. repeat split. left. reflexivity.
  - right. destruct (truthy (assoc "handshake" fields)); effects; repeat split.
  - left. destruct (truthy (assoc "responseToId" fields)).
    + destruct (_sent t !! _); effects; [|repeat split; left; reflexivity].
      repeat split; [| |left]; apply settle_frame.
    + destruct (onMessage t); repeat split; left; reflexivity.
  - left. repeat split; [| |left]; apply settle_frame.
  - left. repeat split. left. reflexivity.
Qed.

Lemma invariant_next (e : event) (t : Talker) : invariant t -> invariant (next e t).
Proof.
  intros [Hq Hs Hi].
  destruct (next_handshake_state e t) as [(Hh & Hp & Hqueue)|(Hh & Hqueue & Hp)].
  - split.
    + rewrite Hh. intros Htrue.
      destruct Hqueue as [->|[_ Hqueue]]; [auto|].
      rewrite Htrue in Hqueue. exact Hqueue.
    + rewrite Hh, Hp. exact Hs.
    + rewrite next_id. destruct (builds_message e); [|assumption].
      pose proof (js_add1_range _ Hi). lia.
  - split.
    + intros _. exact Hqueue.
    + rewrite Hh, Hp, Hs. destruct (handshaken t); reflexivity.
    + rewrite next_id. destruct (builds_message e); [|assumption].
      pose proof (js_add1_range _ Hi). lia.
Qed.

Lemma invariant_run (es : list event) :
  forall t : Talker, invariant t -> invariant (run es t).
Proof.
  unfold run. induction es as [|e es IH]; intros t Hinv; simpl; [assumption|].
  apply IH, invariant_next, Hinv.
Qed.

Lemma reachable_invariant (t : Talker) : reachable t -> invariant t.
Proof.
  intros (w & o & es & ->). apply invariant_run, invariant_new.
Qed.

(** ** The id counter *)

Lemma run_cons (e : event) (es : list event) (t : Talker) :
  run (e :: es) t = run es (next e t).
Proof. reflexivity. Qed.

Lemma run_id_le (es : list event) :
  forall t : Talker, (_id t <= _id (run es t))%Z.
Proof.
  induction es as [|e es IH]; intros t; [apply Z.le_refl|].
  rewrite run_cons. etransitivity; [|apply IH].
  rewrite next_id. destruct (builds_message e); [apply js_add1_ge | apply Z.le_refl].
Qed.

Lemma StronglySorted_lt_NoDup (l : list Z) : StronglySorted Z.lt l -> NoDup l.
Proof.
  induction 1 as [|x l Hs IH Hall]; constructor; [|exact IH].
  intros Hin. rewrite Forall_forall in Hall. specialize (Hall x Hin). lia.
Qed.

Lemma ids_assigned_sorted (es : list event) :
  forall t : Talker,
    (0 <= _id t)%Z ->
    (_id t + Z.of_nat (messages_built es) <= MAX_EXACT)%Z ->
    StronglySorted Z.lt (ids_assigned es t) /\
    Forall (fun i => (_id t < i)%Z) (ids_assigned es t).
Proof.
  unfold messages_built.
  induction es as [|e es IH]; intros t H0 Hbound; [split; constructor|].
  pose proof (next_id e t) as Hid.
  destruct (builds_message e) eqn:Hb.
  - cbn [List.filter] in Hbound. rewrite Hb in Hbound. cbn [length] in Hbound.
    assert (Hexact : js_add1 (_id t) = (_id t + 1)%Z) by (apply js_add1_exact; lia).
    rewrite Hexact in Hid.
    destruct (IH (next e t)) as [Hsorted Hall]; [lia | lia |].
    assert (Hids : ids_assigned (e :: es) t = (_id t + 1)%Z :: ids_assigned es (next e t)).
    { destruct e; try discriminate; cbn [ids_assigned _nextId fst];
        rewrite Hexact; reflexivity. }
    rewrite Hids. split.
    + constructor; [exact Hsorted|].
      eapply Forall_impl; [exact Hall|]. intros i Hi. simpl in Hi. lia.
    + constructor; [lia|].
      eapply Forall_impl; [exact Hall|]. intros i Hi. simpl in Hi. lia.
  - cbn [List.filter] in Hbound. rewrite Hb in Hbound.
    assert (Hids : ids_assigned (e :: es) t = ids_assigned es (next e t)).
    { destruct e; try discriminate; reflexivity. }
    rewrite Hids. destruct (IH (next e t)) as [Hsorted Hall]; [lia | lia |].
    split; [exact Hsorted|].
    eapply Forall_impl; [exact Hall|]. intros i Hi. simpl in Hi. lia.
Qed.

(** C7, within the exact range of the counter: the counter of a new
    instance is 0, each outgoing message gets the counter after its
    increment, the counter never decreases along a run, and as long as the
    run builds no more messages than keep the counter at or below [2^53] the
    ids it assigns are strictly increasing in construction order, hence
    pairwise different. *)
Theorem ids_strictly_increase (es : list event) (t : Talker) :
  (0 <= _id t)%Z ->
  (_id t + Z.of_nat (messages_built es) <= MAX_EXACT)%Z ->
  (forall w o, _id (new_Talker w o) = 0%Z) /\
  (forall namespace data responseToId,
      om_id (fst (new_OutgoingMessage namespace data responseToId t)) =
      _id (snd (new_OutgoingMessage namespace data responseToId t))) /\
  (_id t <= _id (run es t))%Z /\
  StronglySorted Z.lt (ids_assigned es t) /\
  NoDup (ids_assigned es t) /\
  Forall (fun i => (_id t < i)%Z) (ids_assigned es t).
Proof.
  intros H0 Hbound.
  destruct (ids_assigned_sorted es t H0 Hbound) as [Hsorted Hall].
  split; [intros w o; unfold new_Talker; rewrite _sendHandshake_eq, _postMessage_eq;
          reflexivity|].
  split; [reflexivity|].
  split; [apply run_id_le|].
  split; [exact Hsorted|].
  split; [apply StronglySorted_lt_NoDup, Hsorted | exact Hall].
Qed.

Lemma ids_strictly_increase_witness :
  ids_assigned [plain_send; EvReceive request_event; plain_send; EvTimer 0; plain_send]
               fresh_talker = [1; 2; 3]%Z /\
  NoDup (ids_assigned
           [plain_send; EvReceive request_event; plain_send; EvTimer 0; plain_send]
           fresh_talker).
Proof.
  split; [reflexivity|].
  apply (ids_strictly_increase
           [plain_send; EvReceive request_event; plain_send; EvTimer 0; plain_send]
           fresh_talker); vm_compute; discriminate.
Defined.

Lemma run_replicate_id (e : event) (n : nat) :
  builds_message e = true ->
  forall t : Talker,
    (0 <= _id t <= MAX_EXACT)%Z ->
    _id (run (replicate n e) t) = Z.min (_id t + Z.of_nat n) MAX_EXACT.
Proof.
  intros Hb. induction n as [|n IH]; intros t Hrange.
  - simpl. lia.
  - cbn [replicate]. rewrite run_cons, IH; rewrite next_id, Hb.
    + unfold js_add1. destruct (Z.ltb_spec (_id t) MAX_EXACT); lia.
    + pose proof (js_add1_range _ Hrange). lia.
Qed.

Lemma worn_talker_id : _id worn_talker = MAX_EXACT.
Proof.
  unfold worn_talker. rewrite run_replicate_id; [|reflexivity|].
  - replace (_id (new_Talker (WRef 1) (Some a_example))) with 0%Z by reflexivity.
    rewrite Z2Nat.id by discriminate. apply Z.min_r. reflexivity.
  - replace (_id (new_Talker (WRef 1) (Some a_example))) with 0%Z by reflexivity.
    split; discriminate.
Qed.

(** C7 as stated fails past the exact range: on the instance that has sent
    [2^53] messages, the next two messages are both given the id [2^53]. *)
Lemma ids_repeat_past_exact_range :
  ids_assigned [plain_send; plain_send] worn_talker = [MAX_EXACT; MAX_EXACT] /\
  ~ NoDup (ids_assigned [plain_send; plain_send] worn_talker).
Proof.
  pose proof worn_talker_id as Hid.
  assert (Hids : ids_assigned [plain_send; plain_send] worn_talker
                 = [MAX_EXACT; MAX_EXACT]).
  { generalize dependent worn_talker. intros t Hid.
    cbn [ids_assigned plain_send _nextId fst].
    rewrite (next_id plain_send t). cbn [builds_message plain_send].
    rewrite Hid, !js_add1_saturated. reflexivity. }
  split; [exact Hids|].
  rewrite Hids. intros Hnd. inversion Hnd as [|x l Hnotin _]; subst.
  apply Hnotin. left.
Qed.

(** ** Queueing before the handshake *)

Lemma send_all_cons (call : send_args) (calls : list send_args) (t : Talker) :
  send_all (call :: calls) t =
  send_all calls (snd (send call.1.1 call.1.2 call.2 t)).
Proof. destruct call as [[ns d] rid]. reflexivity. Qed.

(** While the handshake is pending, [send] only registers and queues. *)
Lemma send_pending (namespace data responseToId : option json) (t : Talker) :
  handshaken t = false ->
  let message := fst (new_OutgoingMessage namespace data responseToId t) in
  snd (send namespace data responseToId t) =
  set_queue (_queue t ++ [message])
    (set_sent (<[ToString (JNum (om_id message)) := length (futures t)]> (_sent t))
       (set_futures (futures t ++ [Pending]) (set_id (js_add1 (_id t)) t))).
Proof.
  intros Hh. rewrite send_eq. cbv zeta. cbn [snd]. rewrite _flushQueue_eq.
  cbn [handshaken set_queue set_sent set_futures set_id]. rewrite Hh. reflexivity.
Qed.

Lemma send_all_pending (calls : list send_args) :
  forall t : Talker,
    handshaken t = false ->
    handshaken (send_all calls t) = false /\
    posted (send_all calls t) = posted t /\
    _queue (send_all calls t) = _queue t ++ envelopes calls t /\
    remoteWindow (send_all calls t) = remoteWindow t /\
    remoteOrigin (send_all calls t) = remoteOrigin t.
Proof.
  induction calls as [|[[ns d] rid] calls IH]; intros t Hh.
  - simpl. rewrite app_nil_r. repeat split; assumption.
  - rewrite send_all_cons. cbn [fst snd envelopes].
    pose proof (send_pending ns d rid t Hh) as Hsend. cbv zeta in Hsend.
    destruct (IH (snd (send ns d rid t))) as (H1 & H2 & H3 & H4 & H5).
    { rewrite Hsend. exact Hh. }
    rewrite H1, H2, H3, H4, H5, !Hsend.
    cbn [posted _queue remoteWindow remoteOrigin set_queue set_sent set_futures set_id].
    rewrite <- app_assoc. repeat split.
Qed.

(** C1, on an instance whose remote window and origin are set: a batch of
    [send] calls made while [handshaken] is false transmits nothing (the
    posts are those made before, the flush is a no-op and the queue holds
    the new messages after the old ones, in call order); when an accepted
    handshake message then arrives, the receive handler posts, after the
    handshake reply if the message was a request, every queued message once,
    in queue order, and leaves the queue empty. *)
Theorem queued_sends_flush_in_order (calls : list send_args) (t : Talker)
    (messageEvent : MessageEvent) (fields : list (string * json)) :
  handshaken t = false ->
  configured t = true ->
  accepted messageEvent fields t ->
  isHandshake fields = true ->
  posted (send_all calls t) = posted t /\
  _queue (send_all calls t) = _queue t ++ envelopes calls t /\
  _flushQueue (send_all calls t) = send_all calls t /\
  exists t', _receiveMessage messageEvent (send_all calls t) = Normal t' /\
    handshaken t' = true /\
    _queue t' = [] /\
    posted t' =
      posted t
      ++ (if truthy (assoc "handshake" fields)
          then [(handshake_request, default "" (remoteOrigin t))] else [])
      ++ transmissions t (_queue t ++ envelopes calls t).
Proof.
  intros Hh Hc [Hdata Hsafe] Hhs.
  destruct (send_all_pending calls t Hh) as (Hh1 & Hp1 & Hq1 & Hw1 & Ho1).
  split; [exact Hp1|]. split; [exact Hq1|].
  split; [rewrite _flushQueue_eq, Hh1; reflexivity|].
  assert (Hacc : accepted messageEvent fields (send_all calls t)).
  { split; [exact Hdata|]. etransitivity; [|exact Hsafe].
    apply _isSafeMessage_same_remote; assumption. }
  assert (Hc1 : configured (send_all calls t) = true).
  { rewrite <- Hc. apply configured_same_remote; assumption. }
  rewrite (receive_accepted _ _ _ Hacc), Hhs, _handleHandshake_object.
  eexists. split; [reflexivity|].
  destruct (truthy (assoc "handshake" fields)); effects.
  - unfold configured in *. cbn [remoteWindow remoteOrigin set_posted set_handshaken
                                 set_handshake] in *.
    rewrite Hc1, Hh1, Hp1, Hq1, Ho1. unfold transmissions.
    cbn [remoteOrigin set_posted set_handshaken set_handshake].
    rewrite Ho1, <- app_assoc. repeat split.
  - unfold configured in *. cbn [remoteWindow remoteOrigin set_posted set_handshaken
                                 set_handshake] in *.
    rewrite Hc1, Hp1, Hq1. unfold transmissions.
    cbn [remoteOrigin set_posted set_handshaken set_handshake].
    rewrite Ho1. repeat split.
Qed.

Lemma queued_sends_flush_in_order_witness :
  handshaken fresh_talker = false /\
  configured fresh_talker = true /\
  _queue (send_all [hello; hello] fresh_talker) = envelopes [hello; hello] fresh_talker /\
  posted (send_all [hello; hello] fresh_talker) = posted fresh_talker /\
  exists t', _receiveMessage request_event (send_all [hello; hello] fresh_talker)
             = Normal t' /\
    _queue t' = [] /\
    posted t' = posted fresh_talker ++ [(handshake_request, a_example)]
                ++ transmissions fresh_talker (envelopes [hello; hello] fresh_talker).
Proof.
  assert (Hacc : accepted request_event
                   [("type", JStr TALKER_TYPE); ("handshake", JBool true)] fresh_talker).
  { split; reflexivity. }
  destruct (queued_sends_flush_in_order [hello; hello] fresh_talker request_event
              _ eq_refl eq_refl Hacc eq_refl)
    as (Hp & Hq & _ & t' & Hrecv & _ & Hq' & Hp').
  split; [reflexivity|]. split; [reflexivity|].
  split; [exact Hq|]. split; [exact Hp|].
  exists t'. split; [exact Hrecv|]. split; [exact Hq'|]. exact Hp'.
Defined.

(** C1 as stated fails on an instance built without a remote window: the
    queued message is taken off the queue when the handshake completes, and
    no post is made for it. *)
Lemma unconfigured_flush_drops_queue :
  length (_queue (send_all [hello] unconfigured_talker)) = 1 /\
  handshaken (send_all [hello] unconfigured_talker) = false /\
  _receiveMessage sourceless_request (send_all [hello] unconfigured_talker)
    = Normal (next (EvReceive sourceless_request) (send_all [hello] unconfigured_talker)) /\
  handshaken (next (EvReceive sourceless_request) (send_all [hello] unconfigured_talker))
    = true /\
  _queue (next (EvReceive sourceless_request) (send_all [hello] unconfigured_talker)) = [] /\
  posted (next (EvReceive sourceless_request) (send_all [hello] unconfigured_talker)) = [].
Proof. repeat split. Qed.

(** ** The handshake *)

Lemma handshake_flag_isHandshake (fields : list (string * json)) :
  truthy (assoc "handshake" fields) = true -> isHandshake fields = true.
Proof. unfold isHandshake, js_or. intros H. rewrite H. exact H. Qed.

(** C4, as the code has it: an accepted handshake request reaching an
    instance whose handshake is pending, and whose remote window and origin
    are set, is answered with exactly one handshake envelope, and that
    envelope carries the [handshake] flag (a request, the flag passed to
    [_sendHandshake] being the value of [handshaken] before it is set); the
    instance then sets [handshaken], resolves the handshake promise and
    flushes the queue, the queued messages following the reply in queue
    order.  Counter and pending table are untouched. *)
Theorem pending_request_is_answered (messageEvent : MessageEvent)
    (fields : list (string * json)) (t : Talker) :
  handshaken t = false ->
  handshake t = Pending ->
  configured t = true ->
  accepted messageEvent fields t ->
  truthy (assoc "handshake" fields) = true ->
  exists t', _receiveMessage messageEvent t = Normal t' /\
    handshaken t' = true /\
    handshake t' = Fulfilled true /\
    _queue t' = [] /\
    posted t' = posted t ++ [(handshake_request, default "" (remoteOrigin t))]
                ++ transmissions t (_queue t) /\
    _id t' = _id t /\ _sent t' = _sent t.
Proof.
  intros Hh Hp Hc Hacc Hflag.
  rewrite (receive_accepted _ _ _ Hacc), (handshake_flag_isHandshake _ Hflag),
    _handleHandshake_object, Hflag, Hh.
  eexists. split; [reflexivity|]. effects.
  unfold configured in *. cbn [remoteWindow remoteOrigin set_posted set_handshaken
                               set_handshake] in *.
  rewrite Hc, Hp, <- app_assoc. repeat split.
Qed.

Lemma pending_request_is_answered_witness :
  handshaken fresh_talker = false /\
  exists t', _receiveMessage request_event fresh_talker = Normal t' /\
    handshaken t' = true /\
    posted t' = posted fresh_talker ++ [(handshake_request, a_example)].
Proof.
  split; [reflexivity|].
  assert (Hacc : accepted request_event
                   [("type", JStr TALKER_TYPE); ("handshake", JBool true)] fresh_talker).
  { split; reflexivity. }
  destruct (pending_request_is_answered request_event _ fresh_talker
              eq_refl eq_refl eq_refl Hacc eq_refl)
    as (t' & Hrecv & Hh & _ & _ & Hp & _).
  exists t'. split; [exact Hrecv|]. split; [exact Hh|]. exact Hp.
Defined.

(** C4 as stated fails: the reply of a pending instance to a handshake
    request is another request; no confirmation is posted. *)
Lemma pending_reply_is_not_a_confirmation :
  _receiveMessage request_event fresh_talker = Normal established_talker /\
  handshaken fresh_talker = false /\
  posted fresh_talker = [(handshake_request, a_example)] /\
  posted established_talker =
    [(handshake_request, a_example); (handshake_request, a_example)] /\
  ~ In (handshake_confirmation, a_example) (posted established_talker).
Proof.
  repeat split.
  intros [H|[H|[]]]; discriminate H.
Qed.

(** C5, as the code has it: on an instance a run has brought to
    [handshaken = true], an accepted handshake message is handled without
    error and changes nothing but the list of posts: a confirmation posts
    nothing, and every request is answered with one handshake confirmation
    (when the remote window and origin are set).  [handshaken] stays true,
    the queue stays empty, and the handshake promise, the counter, the
    pending table and the promises of [send] are as before. *)
Theorem established_handshake_effects (messageEvent : MessageEvent)
    (fields : list (string * json)) (t : Talker) :
  reachable t ->
  handshaken t = true ->
  accepted messageEvent fields t ->
  isHandshake fields = true ->
  exists t', _receiveMessage messageEvent t = Normal t' /\
    t' = set_posted
           (posted t ++
            (if truthy (assoc "handshake" fields) && configured t
             then [(handshake_confirmation, default "" (remoteOrigin t))] else [])) t /\
    handshaken t' = true /\ _queue t' = [].
Proof.
  intros Hreach Hh Hacc Hhs.
  destruct (reachable_invariant t Hreach) as [Hq Hs _].
  specialize (Hq Hh). rewrite Hh in Hs.
  rewrite (receive_accepted _ _ _ Hacc), Hhs, _handleHandshake_object, Hh.
  eexists. split; [reflexivity|].
  destruct (truthy (assoc "handshake" fields)); effects.
  - split; [|split; reflexivity].
    talker_eq; try congruence.
    + rewrite Hs. reflexivity.
    + unfold configured, transmissions. simpl. rewrite Hq.
      destruct (window_truthy (remoteWindow t) && origin_truthy (remoteOrigin t));
        simpl; rewrite ?app_nil_r; reflexivity.
  - split; [|split; reflexivity].
    talker_eq; try congruence.
    + rewrite Hs. reflexivity.
    + unfold configured, transmissions. simpl. rewrite Hq.
      destruct (window_truthy (remoteWindow t) && origin_truthy (remoteOrigin t));
        simpl; rewrite ?app_nil_r; reflexivity.
Qed.

Lemma established_talker_reachable : reachable established_talker.
Proof.
  exists (WRef 1), (Some a_example), [EvOnMessage true; EvReceive request_event].
  reflexivity.
Qed.

Lemma established_handshake_effects_witness :
  handshaken established_talker = true /\
  exists t', _receiveMessage confirmation_event established_talker = Normal t' /\
    t' = set_posted (posted established_talker ++ []) established_talker.
Proof.
  split; [reflexivity|].
  assert (Hacc : accepted confirmation_event
                   [("type", JStr TALKER_TYPE); ("handshakeConfirmation", JBool true)]
                   established_talker).
  { split; reflexivity. }
  destruct (established_handshake_effects confirmation_event _ established_talker
              established_talker_reachable eq_refl Hacc eq_refl)
    as (t' & Hrecv & Heq & _).
  exists t'. split; [exact Hrecv | exact Heq].
Defined.

(** C5 as stated fails: two further handshake requests reaching an
    established instance are each answered with a handshake confirmation. *)
Lemma established_requests_are_answered_again :
  handshaken established_talker = true /\
  _receiveMessage request_event established_talker
    = Normal (next (EvReceive request_event) established_talker) /\
  posted (next (EvReceive request_event) established_talker)
    = posted established_talker ++ [(handshake_confirmation, a_example)] /\
  posted (run [EvReceive request_event; EvReceive request_event] established_talker)
    = posted established_talker
      ++ [(handshake_confirmation, a_example); (handshake_confirmation, a_example)].
Proof. repeat split. Qed.

(** ** Requests, responses and timeouts *)

(** What [send] leaves behind, whatever the handshake state. *)
Lemma send_registers (namespace data responseToId : option json) (t : Talker) :
  fst (send namespace data responseToId t) = length (futures t) /\
  futures (snd (send namespace data responseToId t)) = futures t ++ [Pending] /\
  _sent (snd (send namespace data responseToId t)) =
    <[ToString (JNum (fst (_nextId t))) := length (futures t)]> (_sent t) /\
  delivered (snd (send namespace data responseToId t)) = delivered t /\
  onMessage (snd (send namespace data responseToId t)) = onMessage t /\
  remoteWindow (snd (send namespace data responseToId t)) = remoteWindow t /\
  remoteOrigin (snd (send namespace data responseToId t)) = remoteOrigin t.
Proof.
  rewrite send_eq. cbv zeta. cbn [fst snd]. rewrite _flushQueue_eq.
  cbn [handshaken set_queue set_sent set_futures set_id].
  destruct (handshaken t); repeat split.
Qed.

Lemma assigned_id_truthy (t : Talker) :
  (0 <= _id t)%Z -> truthy (Some (JNum (fst (_nextId t)))) = true.
Proof.
  intros H0. cbn [_nextId fst truthy].
  pose proof (js_add1_ge (_id t)) as Hge.
  assert (Hpos : (0 < js_add1 (_id t))%Z).
  { unfold js_add1 in *. destruct (Z.ltb_spec (_id t) MAX_EXACT); [lia|].
    assert (0 < MAX_EXACT)%Z by reflexivity. lia. }
  destruct (Z.eqb_spec (js_add1 (_id t)) 0); [lia | reflexivity].
Qed.

(** C3, as the code has it: the promise returned by [send] is pending and
    its resolver is stored under the message id; when the timer fires first
    the promise is rejected with the timeout error, and the entry in
    [_sent] stays where it is; an accepted response to that id arriving
    afterwards finds the entry, calls the resolver, which leaves the
    rejected promise as it is, and deletes the entry; it is not handed to
    [onMessage]. *)
Theorem timed_out_send_keeps_its_entry (namespace data responseToId : option json)
    (t : Talker) (messageEvent : MessageEvent) (fields : list (string * json)) :
  (0 <= _id t)%Z ->
  accepted messageEvent fields t ->
  isHandshake fields = false ->
  assoc "responseToId" fields = Some (JNum (fst (_nextId t))) ->
  exists h t1 t2 t3,
    send namespace data responseToId t = (h, t1) /\
    futures t1 !! h = Some Pending /\
    _sent t1 !! ToString (JNum (fst (_nextId t))) = Some h /\
    timer_fires h t1 = t2 /\
    futures t2 !! h = Some (Rejected TALKER_ERR_TIMEOUT) /\
    _sent t2 = _sent t1 /\
    _receiveMessage messageEvent t2 = Normal t3 /\
    delivered t3 = delivered t2 /\
    futures t3 = futures t2 /\
    _sent t3 = delete (ToString (JNum (fst (_nextId t)))) (_sent t2).
Proof.
  intros H0 [Hdata Hsafe] Hnot Hrid.
  destruct (send_registers namespace data responseToId t)
    as (Hh & Hf & Hs & Hd & Hon & Hw & Ho).
  destruct (send namespace data responseToId t) as [h t1] eqn:Hsend.
  cbn [fst snd] in *. subst h.
  assert (Hpending : futures t1 !! length (futures t) = Some Pending).
  { rewrite Hf. apply list_lookup_middle. reflexivity. }
  assert (Hentry : _sent t1 !! ToString (JNum (fst (_nextId t)))
                   = Some (length (futures t))).
  { rewrite Hs. apply lookup_insert_eq. }
  pose proof (settle_frame (length (futures t)) (Rejected TALKER_ERR_TIMEOUT) t1)
    as (Fw & Fo & _ & _ & _ & _ & Fs & _ & _ & Fd).
  pose proof (settle_pending _ (Rejected TALKER_ERR_TIMEOUT) _ Hpending) as Hrejected.
  fold (timer_fires (length (futures t)) t1) in Fw, Fo, Fs, Fd, Hrejected.
  set (t2 := timer_fires (length (futures t)) t1) in *.
  assert (Hacc : accepted messageEvent fields t2).
  { split; [exact Hdata|]. etransitivity; [|exact Hsafe].
    apply _isSafeMessage_same_remote; congruence. }
  exists (length (futures t)), t1, t2.
  eexists. split; [reflexivity|]. split; [exact Hpending|]. split; [exact Hentry|].
  split; [reflexivity|]. split; [exact Hrejected|]. split; [exact Fs|].
  rewrite (receive_accepted _ _ _ Hacc), Hnot, _handleMessage_object.
  cbv zeta. rewrite Hrid, (assigned_id_truthy t H0).
  unfold _respondToMessage. cbn [property_key]. rewrite Fs, Hentry.
  rewrite settle_settled by (rewrite Hrejected; discriminate).
  split; [reflexivity|]. cbn [delivered futures _sent set_sent].
  rewrite Fs. repeat split.
Qed.

Lemma timed_out_send_keeps_its_entry_witness :
  accepted late_response (response_fields (JNum 1)) established_talker /\
  exists h t1 t2 t3,
    send (Some (JStr "ns")) None None established_talker = (h, t1) /\
    timer_fires h t1 = t2 /\
    futures t2 !! h = Some (Rejected TALKER_ERR_TIMEOUT) /\
    _sent t2 = _sent t1 /\
    _receiveMessage late_response t2 = Normal t3 /\
    delivered t3 = delivered t2.
Proof.
  assert (Hacc : accepted late_response (response_fields (JNum 1)) established_talker).
  { split; reflexivity. }
  split; [exact Hacc|].
  destruct (timed_out_send_keeps_its_entry (Some (JStr "ns")) None None
              established_talker late_response (response_fields (JNum 1)))
    as (h & t1 & t2 & t3 & H1 & _ & _ & H4 & H5 & H6 & H7 & H8 & _).
  - vm_compute. discriminate.
  - exact Hacc.
  - reflexivity.
  - reflexivity.
  - exists h, t1, t2, t3. repeat split; assumption.
Defined.

(** C3 as stated fails: after the timeout the entry of the request is still
    in [_sent], and the late response, although [onMessage] is installed,
    is not handed to it. *)
Lemma timeout_does_not_release_entry :
  futures expired_talker !! 0 = Some (Rejected TALKER_ERR_TIMEOUT) /\
  _sent expired_talker !! "1" = Some 0 /\
  onMessage expired_talker = true /\
  _receiveMessage late_response expired_talker
    = Normal (next (EvReceive late_response) expired_talker) /\
  delivered (next (EvReceive late_response) expired_talker) = [] /\
  _sent (next (EvReceive late_response) expired_talker) !! "1" = None.
Proof. repeat split. Qed.

(** The own properties of a serialised outgoing message, as the receiving
    side reads them. *)
Lemma wire_fields (m : OutgoingMessage) :
  exists fields, wire m = JObj fields /\
    assoc "type" fields = Some (JStr (om_type m)) /\
    isHandshake fields = false /\
    assoc "responseToId" fields = Some (om_responseToId m) /\
    assoc "namespace" fields = om_namespace m /\
    assoc "data" fields = om_data m /\
    assoc "id" fields = Some (JNum (om_id m)).
Proof.
  destruct m as [ns d ty rid id]. unfold wire, JSON_stringify, toJSON, isHandshake, js_or.
  cbn [om_namespace om_data om_type om_responseToId om_id].
  eexists. split; [reflexivity|].
  destruct ns as [ns|], d as [d|]; repeat split.
Qed.

(** C6, for an incoming message whose id is truthy (as every id drawn from
    a Talker counter is): [respond] is [send] with a [null] namespace, the
    data and the id of the message; the outgoing message it builds has that
    id as [responseToId] and is the one queued (or, on an established and
    configured instance, posted); and when the serialised message is
    accepted by an instance that holds a live entry for that id whose
    promise is pending, the promise is fulfilled with the incoming message
    made from it, the entry is deleted and [onMessage] is not called. *)
Theorem respond_links_response (message : IncomingMessage) (k : json)
    (reply : option json) (tb ta : Talker) (messageEvent : MessageEvent) (h : nat) :
  im_id message = Some k ->
  truthy (Some k) = true ->
  data messageEvent =
    Parses (wire (fst (new_OutgoingMessage (Some JNull) reply (Some k) tb))) ->
  _isSafeMessage (source messageEvent) (origin messageEvent)
                 (Some (JStr TALKER_TYPE)) ta = true ->
  _sent ta !! ToString k = Some h ->
  futures ta !! h = Some Pending ->
  respond message reply tb = send (Some JNull) reply (Some k) tb /\
  om_responseToId (fst (new_OutgoingMessage (Some JNull) reply (Some k) tb)) = k /\
  (handshaken tb = false ->
   _queue (snd (respond message reply tb)) =
   _queue tb ++ [fst (new_OutgoingMessage (Some JNull) reply (Some k) tb)]) /\
  (handshaken tb = true -> configured tb = true ->
   posted (snd (respond message reply tb)) =
   posted tb ++ transmissions tb
     (_queue tb ++ [fst (new_OutgoingMessage (Some JNull) reply (Some k) tb)])) /\
  exists ta', _receiveMessage messageEvent ta = Normal ta' /\
    futures ta' !! h =
      Some (Fulfilled (new_IncomingMessage (Some JNull) reply
              (Some (JNum (om_id (fst (new_OutgoingMessage (Some JNull) reply
                                         (Some k) tb))))))) /\
    delivered ta' = delivered ta /\
    _sent ta' !! ToString k = None.
Proof.
  intros Hid Htruthy Hdata Hsafe Hentry Hpending.
  assert (Hrespond : respond message reply tb = send (Some JNull) reply (Some k) tb).
  { unfold respond. rewrite Hid. reflexivity. }
  assert (Hrid : om_responseToId (fst (new_OutgoingMessage (Some JNull) reply (Some k) tb))
                 = k).
  { cbn [new_OutgoingMessage _nextId fst om_responseToId]. unfold js_or.
    rewrite Htruthy. reflexivity. }
  split; [exact Hrespond|]. split; [exact Hrid|].
  split; [|split].
  - intros Hh. rewrite Hrespond, (send_pending _ _ _ tb Hh). reflexivity.
  - intros Hh Hc. rewrite Hrespond, send_eq. cbv zeta. cbn [snd].
    rewrite _flushQueue_eq.
    cbn [handshaken set_queue set_sent set_futures set_id posted _queue].
    rewrite Hh. cbn [posted set_queue set_posted].
    unfold configured in *.
    cbn [remoteWindow remoteOrigin set_queue set_sent set_futures set_id].
    rewrite Hc. reflexivity.
  - destruct (wire_fields (fst (new_OutgoingMessage (Some JNull) reply (Some k) tb)))
      as (fields & Hwire & Hty & Hnot & Hr & Hns & Hd & Hi).
    rewrite Hrid in Hr.
    assert (Hacc : accepted messageEvent fields ta).
    { split; [rewrite Hdata, Hwire; reflexivity|]. rewrite Hty. exact Hsafe. }
    rewrite (receive_accepted _ _ _ Hacc), Hnot, _handleMessage_object.
    cbv zeta. rewrite Hr, Htruthy, Hns, Hd, Hi.
    unfold _respondToMessage. cbn [property_key]. rewrite Hentry.
    eexists. split; [reflexivity|].
    cbn [futures delivered _sent set_sent].
    split; [apply settle_pending, Hpending|].
    split; [apply settle_frame | apply lookup_delete_eq].
Qed.

Lemma respond_links_response_witness :
  im_id (new_IncomingMessage None None (Some (JNum 1))) = Some (JNum 1) /\
  _sent awaiting_talker !! ToString (JNum 1) = Some 0 /\
  exists ta',
    _receiveMessage
      (event_from_remote (wire (fst (new_OutgoingMessage (Some JNull) (Some (JStr "pong"))
                                       (Some (JNum 1)) fresh_talker))))
      awaiting_talker = Normal ta' /\
    futures ta' !! 0 =
      Some (Fulfilled (new_IncomingMessage (Some JNull) (Some (JStr "pong"))
                                           (Some (JNum 1)))) /\
    delivered ta' = delivered awaiting_talker.
Proof.
  split; [reflexivity|]. split; [reflexivity|].
  destruct (respond_links_response
              (new_IncomingMessage None None (Some (JNum 1))) (JNum 1)
              (Some (JStr "pong")) fresh_talker awaiting_talker
              (event_from_remote (wire (fst (new_OutgoingMessage (Some JNull)
                 (Some (JStr "pong")) (Some (JNum 1)) fresh_talker)))) 0
              eq_refl eq_refl eq_refl eq_refl eq_refl eq_refl)
    as (_ & _ & _ & _ & ta' & Hrecv & Hf & Hd & _).
  exists ta'. split; [exact Hrecv|]. split; [exact Hf | exact Hd].
Defined.

(** C6 as stated fails for an incoming message whose id is 0: the message
    built by [respond] carries [null], not 0, as [responseToId]. *)
Lemma respond_to_zero_id_loses_link :
  im_id zero_id_message = Some (JNum 0) /\
  map om_responseToId (_queue (snd (respond zero_id_message (Some (JStr "pong"))
                                            fresh_talker))) = [JNull] /\
  JNull <> JNum 0.
Proof. repeat split. discriminate. Qed.


(** * Further properties of the source *)

(** ** The receive handler *)

(** X2: an event whose payload parses to something other than [null] and
    that misses one of the three checks (source, origin, type tag) is
    discarded: the handler completes normally and returns the instance as
    it was. *)
Theorem failed_check_discards (messageEvent : MessageEvent) (object : json)
    (t : Talker) :
  data messageEvent = Parses object ->
  object <> JNull ->
  ~ (source messageEvent = remoteWindow t /\
     (remoteOrigin t = Some "*" \/ Some (origin messageEvent) = remoteOrigin t) /\
     member object "type" = Normal (Some (JStr TALKER_TYPE))) ->
  _receiveMessage messageEvent t = Normal t.
Proof.
  intros Hdata Hnull Hfail.
  destruct (receive_filter messageEvent object t Hdata Hnull)
    as (type & Hty & Hrej & _).
  apply Hrej.
  destruct (_isSafeMessage (source messageEvent) (origin messageEvent) type t) eqn:Hsafe;
    [|reflexivity].
  exfalso. apply Hfail. apply _isSafeMessage_iff in Hsafe.
  destruct Hsafe as (Hs & Ho & ->). repeat split; assumption.
Qed.

Lemma failed_check_discards_witness :
  data foreign_event = Parses (JObj [("type", JStr TALKER_TYPE); ("id", JNum 1)]) /\
  _receiveMessage foreign_event established_talker = Normal established_talker.
Proof.
  split; [reflexivity|].
  apply (failed_check_discards foreign_event
           (JObj [("type", JStr TALKER_TYPE); ("id", JNum 1)]) established_talker).
  - reflexivity.
  - discriminate.
  - intros (_ & [H|H] & _); discriminate H.
Defined.

(** ** Dispatch of accepted messages *)

(** X3: an accepted message that is neither a handshake nor a response
    ([responseToId] falsy) is wrapped into an incoming message with the
    [namespace], [data] and [id] of the wire object, and handed to
    [onMessage] when a callback is installed; without a callback it is
    dropped.  Nothing else of the instance changes. *)
Theorem plain_message_goes_to_onMessage (messageEvent : MessageEvent)
    (fields : list (string * json)) (t : Talker) :
  accepted messageEvent fields t ->
  isHandshake fields = false ->
  truthy (assoc "responseToId" fields) = false ->
  _receiveMessage messageEvent t =
  Normal (if onMessage t
          then set_delivered
                 (delivered t ++
                  [new_IncomingMessage (assoc "namespace" fields) (assoc "data" fields)
                                       (assoc "id" fields)]) t
          else t).
Proof.
  intros Hacc Hnot Hrid.
  rewrite (receive_accepted _ _ _ Hacc), Hnot, _handleMessage_object.
  cbv zeta. rewrite Hrid. reflexivity.
Qed.

Lemma plain_message_goes_to_onMessage_witness :
  accepted plain_event plain_fields established_talker /\
  _receiveMessage plain_event established_talker =
  Normal (set_delivered
            [new_IncomingMessage (Some (JStr "ns")) (Some (JStr "ping")) (Some (JNum 4))]
            established_talker).
Proof.
  assert (Hacc : accepted plain_event plain_fields established_talker).
  { split; reflexivity. }
  split; [exact Hacc|].
  apply (plain_message_goes_to_onMessage plain_event plain_fields established_talker Hacc);
    reflexivity.
Defined.

(** X4: [onMessage] is called for nothing else.  Whatever the event, either
    the list of delivered messages is unchanged, or the event is the
    receipt of an accepted message without handshake flag and with a falsy
    [responseToId], on an instance with a callback, and exactly that one
    message is appended. *)
Theorem onMessage_only_for_plain_messages (e : event) (t : Talker) :
  delivered (next e t) = delivered t \/
  exists messageEvent fields,
    e = EvReceive messageEvent /\
    accepted messageEvent fields t /\
    isHandshake fields = false /\
    truthy (assoc "responseToId" fields) = false /\
    onMessage t = true /\
    delivered (next e t) =
      delivered t ++ [new_IncomingMessage (assoc "namespace" fields)
                        (assoc "data" fields) (assoc "id" fields)].
Proof.
  unfold next, step, respond.
  destruct e as [ns d rid|m d|ev|h|b]; unfold_bind.
  - left. apply send_registers.
  - left. apply send_registers.
  - destruct (receive_cases ev t) as [[_ ->]|[->|(fields & Hacc & ->)]];
      [left; reflexivity | left; reflexivity |].
    destruct (isHandshake fields) eqn:Hhs.
    + left. rewrite _handleHandshake_object.
      destruct (truthy (assoc "handshake" fields)); effects; reflexivity.
    + rewrite _handleMessage_state. cbv zeta.
      destruct (truthy (assoc "responseToId" fields)) eqn:Hrid.
      * left.
        destruct (_sent t !! _); effects; [apply settle_frame | reflexivity].
      * unfold _broadcastMessage. destruct (onMessage t) eqn:Hon; [|left; reflexivity].
        right. exists ev, fields.
        split; [reflexivity|]. split; [exact Hacc|]. split; [exact Hhs|].
        split; [exact Hrid|]. split; reflexivity.
  - left. apply settle_frame.
  - left. reflexivity.
Qed.

(** X5: an accepted response (truthy [responseToId]) whose id has a live
    entry calls the stored resolver with the incoming message and deletes
    the entry; the queue, the posts, the counter, the handshake state and
    the messages delivered to [onMessage] are untouched.  The key is the
    property name of the id, so the number 7, the string "7" and the
    array [[7]] reach the same entry. *)
Theorem response_consumes_entry (messageEvent : MessageEvent)
    (fields : list (string * json)) (responseId : json) (h : nat) (t : Talker) :
  accepted messageEvent fields t ->
  isHandshake fields = false ->
  assoc "responseToId" fields = Some responseId ->
  truthy (Some responseId) = true ->
  _sent t !! ToString responseId = Some h ->
  _receiveMessage messageEvent t =
    Normal (set_sent (delete (ToString responseId) (_sent t))
              (settle h (Fulfilled (new_IncomingMessage (assoc "namespace" fields)
                                      (assoc "data" fields) (assoc "id" fields))) t)) /\
  (forall n : Z, ToString (JStr (ToString (JNum n))) = ToString (JNum n) /\
                 ToString (JArr [JNum n]) = ToString (JNum n)).
Proof.
  intros Hacc Hnot Hrid Htruthy Hlive. split.
  - rewrite (receive_accepted _ _ _ Hacc), Hnot, _handleMessage_object.
    cbv zeta. rewrite Hrid, Htruthy. unfold _respondToMessage.
    cbn [property_key]. rewrite Hlive.
    destruct (settle_frame h (Fulfilled (new_IncomingMessage (assoc "namespace" fields)
                (assoc "data" fields) (assoc "id" fields))) t)
      as (_ & _ & _ & _ & _ & _ & -> & _).
    reflexivity.
  - intros n. split; reflexivity.
Qed.

Lemma response_consumes_entry_witness :
  accepted (event_from_remote (JObj (response_fields (JStr "1"))))
           (response_fields (JStr "1")) awaiting_talker /\
  _sent awaiting_talker !! "1" = Some 0 /\
  exists t', _receiveMessage (event_from_remote (JObj (response_fields (JStr "1"))))
                             awaiting_talker = Normal t' /\
    _sent t' !! "1" = None /\
    futures t' !! 0 = Some (Fulfilled (new_IncomingMessage (Some JNull)
                              (Some (JStr "late")) (Some (JNum 5)))).
Proof.
  assert (Hacc : accepted (event_from_remote (JObj (response_fields (JStr "1"))))
                   (response_fields (JStr "1")) awaiting_talker).
  { split; reflexivity. }
  split; [exact Hacc|]. split; [reflexivity|].
  destruct (response_consumes_entry _ (response_fields (JStr "1")) (JStr "1") 0
              awaiting_talker Hacc eq_refl eq_refl eq_refl eq_refl) as [Hrecv _].
  eexists. split; [exact Hrecv|]. split; reflexivity.
Defined.



(** ** Handshake, flush and send *)

(** X7: an accepted handshake confirmation (no [handshake] flag) reaching a
    pending instance completes the handshake without any reply: [handshaken]
    is set, the handshake promise is resolved with [true], and the only
    posts added are the queued messages, in queue order (none when the
    remote window or origin is missing); the queue is left empty. *)
Theorem pending_confirmation_completes (messageEvent : MessageEvent)
    (fields : list (string * json)) (t : Talker) :
  handshaken t = false ->
  handshake t = Pending ->
  accepted messageEvent fields t ->
  isHandshake fields = true ->
  truthy (assoc "handshake" fields) = false ->
  exists t', _receiveMessage messageEvent t = Normal t' /\
    handshaken t' = true /\
    handshake t' = Fulfilled true /\
    _queue t' = [] /\
    posted t' = posted t ++ (if configured t then transmissions t (_queue t) else []) /\
    _id t' = _id t /\ _sent t' = _sent t /\ futures t' = futures t /\
    delivered t' = delivered t.
Proof.
  intros Hh Hp Hacc Hhs Hflag.
  rewrite (receive_accepted _ _ _ Hacc), Hhs, _handleHandshake_object, Hflag.
  eexists. split; [reflexivity|]. effects. rewrite Hp. repeat split.
Qed.

Lemma pending_confirmation_completes_witness :
  handshaken (send_all [hello] fresh_talker) = false /\
  exists t', _receiveMessage confirmation_event (send_all [hello] fresh_talker)
             = Normal t' /\
    handshaken t' = true /\
    posted t' = posted fresh_talker
                ++ transmissions fresh_talker (envelopes [hello] fresh_talker).
Proof.
  split; [reflexivity|].
  assert (Hacc : accepted confirmation_event
                   [("type", JStr TALKER_TYPE); ("handshakeConfirmation", JBool true)]
                   (send_all [hello] fresh_talker)).
  { split; reflexivity. }
  destruct (pending_confirmation_completes confirmation_event _
              (send_all [hello] fresh_talker) eq_refl eq_refl Hacc eq_refl eq_refl)
    as (t' & Hrecv & Hh & _ & _ & Hp & _).
  exists t'. split; [exact Hrecv|]. split; [exact Hh|]. exact Hp.
Defined.

(** X8: on an instance a run has brought to [handshaken = true], with remote
    window and origin set, [send] transmits at once: it makes exactly one
    post, the wire form of the message it has just built, to the remote
    origin, and leaves the queue empty. *)
Theorem established_send_transmits_at_once (namespace payload responseToId : option json)
    (t : Talker) :
  reachable t ->
  handshaken t = true ->
  configured t = true ->
  posted (snd (send namespace payload responseToId t)) =
    posted t ++ [(wire (fst (new_OutgoingMessage namespace payload responseToId t)),
                  default "" (remoteOrigin t))] /\
  _queue (snd (send namespace payload responseToId t)) = [].
Proof.
  intros Hreach Hh Hc.
  destruct (reachable_invariant t Hreach) as [Hq _ _]. specialize (Hq Hh).
  rewrite send_eq. cbv zeta. cbn [snd]. rewrite _flushQueue_eq.
  cbn [handshaken set_queue set_sent set_futures set_id posted _queue].
  rewrite Hh. cbn [posted _queue set_queue set_posted].
  unfold configured in *.
  cbn [remoteWindow remoteOrigin set_queue set_sent set_futures set_id].
  rewrite Hc, Hq. split; reflexivity.
Qed.

Lemma established_send_transmits_at_once_witness :
  handshaken established_talker = true /\
  posted (snd (send (Some (JStr "ns")) None None established_talker)) =
    posted established_talker
    ++ [(wire (fst (new_OutgoingMessage (Some (JStr "ns")) None None established_talker)),
         a_example)] /\
  _queue (snd (send (Some (JStr "ns")) None None established_talker)) = [].
Proof.
  split; [reflexivity|].
  apply (established_send_transmits_at_once (Some (JStr "ns")) None None
           established_talker established_talker_reachable); reflexivity.
Defined.

(** X9: flushing twice is flushing once: a flush on a pending instance does
    nothing, and a flush on an established one empties the queue, so a
    second flush finds nothing to post. *)
Theorem flush_is_idempotent (t : Talker) :
  _flushQueue (_flushQueue t) = _flushQueue t /\
  (handshaken t = true -> _queue (_flushQueue t) = []) /\
  (handshaken t = false -> _flushQueue t = t).
Proof.
  split; [|split].
  - rewrite (_flushQueue_eq t). destruct (handshaken t) eqn:Hh.
    + rewrite _flushQueue_eq.
      cbn [handshaken set_queue set_posted posted _queue]. rewrite Hh.
      talker_eq. unfold configured, transmissions. simpl.
      destruct (window_truthy (remoteWindow t) && origin_truthy (remoteOrigin t));
        apply app_nil_r.
    + rewrite _flushQueue_eq, Hh. reflexivity.
  - intros Hh. rewrite _flushQueue_eq, Hh. reflexivity.
  - intros Hh. rewrite _flushQueue_eq, Hh. reflexivity.
Qed.

Lemma flush_is_idempotent_witness :
  handshaken established_talker = true /\
  _queue (_flushQueue (set_queue (envelopes [hello] fresh_talker) established_talker)) = [].
Proof.
  split; [reflexivity|].
  apply (flush_is_idempotent
           (set_queue (envelopes [hello] fresh_talker) established_talker)).
  reflexivity.
Defined.

(** X10: the constructor leaves a pending instance (handshake not done, its
    promise pending, counter 0, empty queue and table, timeout 3000, no
    callback) and, when the remote window and origin are set, announces
    itself with exactly one handshake request posted to the remote origin. *)
Theorem constructor_announces_once (w : winref) (o : option string) :
  handshaken (new_Talker w o) = false /\
  handshake (new_Talker w o) = Pending /\
  _queue (new_Talker w o) = [] /\
  _sent (new_Talker w o) = ∅ /\
  timeout (new_Talker w o) = 3000%Z /\
  onMessage (new_Talker w o) = false /\
  remoteWindow (new_Talker w o) = w /\
  remoteOrigin (new_Talker w o) = o /\
  posted (new_Talker w o) =
    if window_truthy w && origin_truthy o
    then [(handshake_request, default "" o)] else [].
Proof.
  unfold new_Talker. rewrite _sendHandshake_eq, _postMessage_eq.
  cbn [handshaken handshake _queue _sent timeout onMessage remoteWindow remoteOrigin
       posted set_posted].
  repeat split.
Qed.

(** ** What every run keeps *)

Lemma run_preserves (P : Talker -> Prop) :
  (forall e t, P t -> P (next e t)) ->
  forall es t, P t -> P (run es t).
Proof.
  intros Hstep es. induction es as [|e es IH]; intros t Ht; [exact Ht|].
  rewrite run_cons. apply IH, Hstep, Ht.
Qed.

(** X11: the handshake never goes back.  Once [handshaken] is true it is
    true after every run of events, whatever they are. *)
Theorem handshaken_never_reverts (es : list event) (t : Talker) :
  handshaken t = true -> handshaken (run es t) = true.
Proof.
  apply (run_preserves (fun t => handshaken t = true)).
  intros e t'. apply next_handshaken.
Qed.

Lemma handshaken_never_reverts_witness :
  handshaken established_talker = true /\
  handshaken (run [EvReceive confirmation_event; EvReceive garbled_event;
                   EvSend None None None; EvTimer 0; EvReceive request_event]
                  established_talker) = true.
Proof.
  split; [reflexivity|].
  apply (handshaken_never_reverts _ established_talker). reflexivity.
Defined.

(** X12: the remote window and origin are fixed by the constructor: no run
    of events changes them, so the filter gives the same verdict on an
    event at any point in the life of the instance. *)
Theorem remote_is_fixed (es : list event) (t : Talker) :
  remoteWindow (run es t) = remoteWindow t /\
  remoteOrigin (run es t) = remoteOrigin t /\
  forall source origin type,
    _isSafeMessage source origin type (run es t) = _isSafeMessage source origin type t.
Proof.
  assert (H : remoteWindow (run es t) = remoteWindow t /\
              remoteOrigin (run es t) = remoteOrigin t).
  { apply (run_preserves (fun t' => remoteWindow t' = remoteWindow t /\
                                    remoteOrigin t' = remoteOrigin t));
      [|split; reflexivity].
    intros e t' [Hw Ho]. destruct (next_same_remote e t') as [Hw' Ho'].
    split; congruence. }
  destruct H as [Hw Ho]. split; [exact Hw|]. split; [exact Ho|].
  intros source origin type. apply _isSafeMessage_same_remote; assumption.
Qed.

(** X13: in every state reached from the constructor by a run of events,
    the queue is empty whenever the handshake is done, the handshake
    promise is fulfilled with [true] exactly when [handshaken] is true and
    pending otherwise, and the counter lies between 0 and [2^53]. *)
Theorem reachable_state_is_consistent (t : Talker) :
  reachable t ->
  (handshaken t = true -> _queue t = []) /\
  handshake t = (if handshaken t then Fulfilled true else Pending) /\
  (0 <= _id t <= MAX_EXACT)%Z.
Proof.
  intros Hreach. destruct (reachable_invariant t Hreach) as [Hq Hs Hi].
  split; [exact Hq|]. split; [exact Hs | exact Hi].
Qed.

Lemma reachable_state_is_consistent_witness :
  reachable established_talker /\
  _queue established_talker = [] /\
  handshake established_talker = Fulfilled true.
Proof.
  split; [exact established_talker_reachable|].
  destruct (reachable_state_is_consistent established_talker
              established_talker_reachable) as (Hq & Hs & _).
  split; [apply Hq; reflexivity | exact Hs].
Defined.

(** X14: the counter counts the outgoing messages built since construction,
    up to the point where it stops: after any run it is the number of
    [send] and [respond] calls of the run, capped at [2^53]. *)
Theorem counter_counts_messages (w : winref) (o : option string) (es : list event) :
  _id (run es (new_Talker w o)) = Z.min (Z.of_nat (messages_built es)) MAX_EXACT.
Proof.
  assert (Hgen : forall es t, (0 <= _id t <= MAX_EXACT)%Z ->
            _id (run es t) = Z.min (_id t + Z.of_nat (messages_built es)) MAX_EXACT).
  { clear. unfold messages_built.
    induction es as [|e es IH]; intros t Hrange.
    - simpl. lia.
    - assert (Hnext : (0 <= _id (next e t) <= MAX_EXACT)%Z).
      { rewrite next_id. destruct (builds_message e); [|assumption].
        pose proof (js_add1_range _ Hrange). lia. }
      rewrite run_cons, (IH _ Hnext), next_id. cbn [List.filter].
      destruct (builds_message e); cbn [length]; [|reflexivity].
      unfold js_add1. destruct (Z.ltb_spec (_id t) MAX_EXACT); lia. }
  rewrite Hgen.
  - replace (_id (new_Talker w o)) with 0%Z; [reflexivity|].
    unfold new_Talker. rewrite _sendHandshake_eq, _postMessage_eq. reflexivity.
  - apply invariant_new.
Qed.

(** ** Promises and the pending table along a run *)

Lemma settle_stable (h h' : nat) (p outcome : promise IncomingMessage) (t : Talker) :
  futures t !! h = Some p -> p <> Pending ->
  futures (settle h' outcome t) !! h = Some p.
Proof.
  intros Hp Hne. unfold settle.
  destruct (futures t !! h') as [[| |]|] eqn:Hh'; try exact Hp.
  cbn [futures set_futures]. rewrite list_lookup_insert_ne; [exact Hp|].
  intros ->. congruence.
Qed.

Lemma settle_length (h : nat) (outcome : promise IncomingMessage) (t : Talker) :
  length (futures (settle h outcome t)) = length (futures t).
Proof.
  unfold settle. destruct (futures t !! h) as [[| |]|]; try reflexivity.
  cbn [futures set_futures]. apply length_insert.
Qed.

(** How one event moves the pending table and the promises. *)
Lemma next_table (e : event) (t : Talker) :
  (builds_message e = true /\
   _sent (next e t) =
     <[ToString (JNum (js_add1 (_id t))) := length (futures t)]> (_sent t) /\
   futures (next e t) = futures t ++ [Pending]) \/
  (builds_message e = false /\
   (_sent (next e t) = _sent t \/ exists key, _sent (next e t) = delete key (_sent t)) /\
   length (futures (next e t)) = length (futures t) /\
   forall h p, futures t !! h = Some p -> p <> Pending ->
               futures (next e t) !! h = Some p).
Proof.
  unfold next, step, respond.
  destruct e as [ns d rid|m d|ev|h|b]; unfold_bind.
  - left. destruct (send_registers ns d rid t) as (_ & Hf & Hs & _).
    split; [reflexivity|]. split; [exact Hs | exact Hf].
  - left. destruct (send_registers (Some JNull) d (im_id m) t) as (_ & Hf & Hs & _).
    split; [reflexivity|]. split; [exact Hs | exact Hf].
  - right. split; [reflexivity|].
    destruct (receive_cases ev t) as [[_ ->]|[->|(fields & Hacc & ->)]];
      try (split; [left; reflexivity|]; split; [reflexivity|]; intros; assumption).
    destruct (isHandshake fields).
    + rewrite _handleHandshake_object.
      destruct (truthy (assoc "handshake" fields)); effects;
        (split; [left; reflexivity|]; split; [reflexivity|]; intros; assumption).
    + rewrite _handleMessage_state. cbv zeta.
      destruct (truthy (assoc "responseToId" fields)).
      * destruct (_sent t !! _) as [resolve|]; effects.
        -- split; [right; eexists; f_equal; apply settle_frame|].
           split; [apply settle_length|].
           intros h p Hp Hne. apply settle_stable; assumption.
        -- split; [left; reflexivity|]; split; [reflexivity|]; intros; assumption.
      * unfold _broadcastMessage. destruct (onMessage t);
          (split; [left; reflexivity|]; split; [reflexivity|]; intros; assumption).
  - right. split; [reflexivity|]. unfold timer_fires.
    split; [left; apply settle_frame|]. split; [apply settle_length|].
    intros h' p Hp Hne. apply settle_stable; assumption.
  - right. split; [reflexivity|]. split; [left; reflexivity|].
    split; [reflexivity|]. intros; assumption.
Qed.

Lemma next_settled_stays (e : event) (t : Talker) (h : nat)
    (p : promise IncomingMessage) :
  futures t !! h = Some p -> p <> Pending -> futures (next e t) !! h = Some p.
Proof.
  intros Hp Hne.
  destruct (next_table e t) as [(_ & _ & ->)|(_ & _ & _ & H)].
  - apply lookup_app_l_Some, Hp.
  - apply H; assumption.
Qed.

(** X15: the promise returned by [send] settles once.  When it has been
    fulfilled by a response or rejected by its timer, no run of later
    events (a late response, a duplicate, the timer, anything else) changes
    its outcome. *)
Theorem settled_promise_is_final (es : list event) (t : Talker) (h : nat)
    (p : promise IncomingMessage) :
  futures t !! h = Some p -> p <> Pending -> futures (run es t) !! h = Some p.
Proof.
  intros Hp Hne.
  apply (run_preserves (fun t' => futures t' !! h = Some p)); [|exact Hp].
  intros e t' Hp'. apply next_settled_stays; assumption.
Qed.

Lemma settled_promise_is_final_witness :
  futures expired_talker !! 0 = Some (Rejected TALKER_ERR_TIMEOUT) /\
  futures (run [EvReceive late_response; EvTimer 0; EvSend None None None]
               expired_talker) !! 0 = Some (Rejected TALKER_ERR_TIMEOUT).
Proof.
  split; [reflexivity|].
  apply (settled_promise_is_final _ expired_talker 0 (Rejected TALKER_ERR_TIMEOUT)).
  - reflexivity.
  - discriminate.
Defined.

Lemma resolvers_in_range_next (e : event) (t : Talker) :
  resolvers_in_range t -> resolvers_in_range (next e t).
Proof.
  unfold resolvers_in_range. intros Hin.
  destruct (next_table e t) as [(_ & -> & ->)|(_ & Hs & -> & _)].
  - rewrite length_app. cbn [length]. apply map_Forall_insert_2; [lia|].
    eapply map_Forall_impl; [exact Hin|]. intros k h Hh. simpl in *. lia.
  - destruct Hs as [->|[key ->]]; [exact Hin|]. apply map_Forall_delete, Hin.
Qed.

(** X16: every resolver kept in the pending table belongs to a promise that
    [send] has handed out: in each state reached from the constructor, the
    entries of [_sent] point at existing promises. *)
Theorem pending_entries_have_promises (t : Talker) (key : string) (h : nat) :
  reachable t -> _sent t !! key = Some h -> is_Some (futures t !! h).
Proof.
  intros (w & o & es & ->) Hentry.
  assert (Hin : resolvers_in_range (run es (new_Talker w o))).
  { apply (run_preserves resolvers_in_range); [apply resolvers_in_range_next|].
    unfold resolvers_in_range, new_Talker.
    rewrite _sendHandshake_eq, _postMessage_eq. cbn [_sent set_posted].
    apply map_Forall_empty. }
  apply lookup_lt_is_Some. exact (Hin key h Hentry).
Qed.

Lemma awaiting_talker_reachable : reachable awaiting_talker.
Proof.
  exists (WRef 1), (Some a_example),
    [EvOnMessage true; EvReceive request_event; EvSend (Some (JStr "ns")) None None].
  vm_compute. reflexivity.
Qed.

Lemma pending_entries_have_promises_witness :
  _sent awaiting_talker !! "1" = Some 0 /\ is_Some (futures awaiting_talker !! 0).
Proof.
  split; [reflexivity|].
  exact (pending_entries_have_promises awaiting_talker "1" 0
           awaiting_talker_reachable eq_refl).
Defined.

Lemma Number_toString_exact (n : Z) :
  (Z.abs n <= MAX_EXACT)%Z -> Number_toString n = pretty n.
Proof.
  intros H. unfold Number_toString.
  destruct (Z.leb_spec (Z.abs n) MAX_EXACT); [reflexivity | lia].
Qed.

Lemma keys_assigned_next (e : event) (t : Talker) :
  (0 <= _id t)%Z -> keys_assigned t -> keys_assigned (next e t).
Proof.
  intros H0 Hkeys key Hsome. rewrite next_id.
  destruct (next_table e t) as [(-> & Hs & _)|(-> & Hs & _)].
  - rewrite Hs in Hsome. pose proof (js_add1_ge (_id t)) as Hge.
    destruct (decide (ToString (JNum (js_add1 (_id t))) = key)) as [<-|Hne].
    + exists (js_add1 (_id t)). split; [|reflexivity].
      unfold js_add1 in *. destruct (Z.ltb_spec (_id t) MAX_EXACT); [lia|].
      assert (0 < MAX_EXACT)%Z by reflexivity. lia.
    + rewrite lookup_insert_ne in Hsome by exact Hne.
      destruct (Hkeys key Hsome) as (i & Hi & ->). exists i. split; [lia|reflexivity].
  - destruct Hs as [Hs|[key' Hs]]; rewrite Hs in Hsome.
    + apply Hkeys, Hsome.
    + apply Hkeys. destruct Hsome as [h Hh].
      apply lookup_delete_Some in Hh. destruct Hh as [_ Hh]. eauto.
Qed.

Lemma reachable_keys_assigned (t : Talker) : reachable t -> keys_assigned t.
Proof.
  intros (w & o & es & ->).
  apply (run_preserves (fun t => (0 <= _id t)%Z /\ keys_assigned t)).
  - intros e t' [H0 Hk]. split; [|apply keys_assigned_next; assumption].
    rewrite next_id. destruct (builds_message e); [|exact H0].
    pose proof (js_add1_ge (_id t')). lia.
  - split; [apply invariant_new|].
    intros key [h Hh]. unfold new_Talker in Hh.
    rewrite _sendHandshake_eq, _postMessage_eq in Hh. cbn [_sent set_posted] in Hh.
    rewrite lookup_empty in Hh. discriminate.
Qed.

(** X17: while the counter is below [2^53], [send] never overwrites a
    pending request: in every state reached from the constructor the key of
    the next id is free in [_sent], so the table gains exactly one entry,
    pointing at the promise [send] returns. *)
Theorem send_takes_a_free_slot (namespace payload responseToId : option json)
    (t : Talker) :
  reachable t ->
  (_id t < MAX_EXACT)%Z ->
  _sent t !! ToString (JNum (fst (_nextId t))) = None /\
  size (_sent (snd (send namespace payload responseToId t))) = S (size (_sent t)) /\
  _sent (snd (send namespace payload responseToId t))
    !! ToString (JNum (fst (_nextId t))) = Some (fst (send namespace payload responseToId t)).
Proof.
  intros Hreach Hlt.
  assert (Hfree : _sent t !! ToString (JNum (fst (_nextId t))) = None).
  { destruct (_sent t !! ToString (JNum (fst (_nextId t)))) as [h|] eqn:Hh; [|reflexivity].
    exfalso. destruct (reachable_keys_assigned t Hreach _ (mk_is_Some _ _ Hh))
      as (i & Hi & Heq).
    destruct (reachable_invariant t Hreach) as [_ _ Hrange].
    cbn [_nextId fst ToString] in Heq.
    rewrite js_add1_exact in Heq by exact Hlt.
    rewrite !Number_toString_exact in Heq by lia.
    apply (inj pretty) in Heq. lia. }
  destruct (send_registers namespace payload responseToId t) as (Hh & _ & Hs & _).
  split; [exact Hfree|]. rewrite Hs, Hh. split.
  - apply map_size_insert_None, Hfree.
  - apply lookup_insert_eq.
Qed.

Lemma send_takes_a_free_slot_witness :
  (_id awaiting_talker < MAX_EXACT)%Z /\
  _sent awaiting_talker !! "2" = None /\
  size (_sent (snd (send None None None awaiting_talker))) = 2.
Proof.
  split; [reflexivity|].
  destruct (send_takes_a_free_slot None None None awaiting_talker
              awaiting_talker_reachable eq_refl) as (Hfree & Hsize & _).
  split; [exact Hfree | exact Hsize].
Defined.

(** X18: a response that arrives before the timer wins the race: on a
    state reached from the constructor, once [send] has returned, an
    accepted response to the id it assigned fulfils the promise with the
    incoming message and deletes the entry, and the timer firing afterwards
    changes nothing at all. *)
Theorem response_beats_timer (namespace payload responseToId : option json)
    (t : Talker) (messageEvent : MessageEvent) (fields : list (string * json)) :
  (0 <= _id t)%Z ->
  accepted messageEvent fields t ->
  isHandshake fields = false ->
  assoc "responseToId" fields = Some (JNum (fst (_nextId t))) ->
  exists h t1 t2,
    send namespace payload responseToId t = (h, t1) /\
    _receiveMessage messageEvent t1 = Normal t2 /\
    futures t2 !! h =
      Some (Fulfilled (new_IncomingMessage (assoc "namespace" fields)
                         (assoc "data" fields) (assoc "id" fields))) /\
    _sent t2 !! ToString (JNum (fst (_nextId t))) = None /\
    delivered t2 = delivered t /\
    timer_fires h t2 = t2.
Proof.
  intros H0 [Hdata Hsafe] Hnot Hrid.
  destruct (send_registers namespace payload responseToId t)
    as (Hh & Hf & Hs & Hd & _ & Hw & Ho).
  destruct (send namespace payload responseToId t) as [h t1] eqn:Hsend.
  cbn [fst snd] in *. subst h.
  assert (Hpending : futures t1 !! length (futures t) = Some Pending).
  { rewrite Hf. apply list_lookup_middle. reflexivity. }
  assert (Hentry : _sent t1 !! ToString (JNum (fst (_nextId t)))
                   = Some (length (futures t))).
  { rewrite Hs. apply lookup_insert_eq. }
  assert (Hacc : accepted messageEvent fields t1).
  { split; [exact Hdata|]. etransitivity; [|exact Hsafe].
    apply _isSafeMessage_same_remote; assumption. }
  exists (length (futures t)), t1. eexists. split; [reflexivity|].
  rewrite (receive_accepted _ _ _ Hacc), Hnot, _handleMessage_object.
  cbv zeta. rewrite Hrid, (assigned_id_truthy t H0).
  unfold _respondToMessage. cbn [property_key]. rewrite Hentry.
  split; [reflexivity|].
  pose proof (settle_pending _ (Fulfilled (new_IncomingMessage (assoc "namespace" fields)
                (assoc "data" fields) (assoc "id" fields))) _ Hpending) as Hfulfilled.
  cbn [futures delivered _sent set_sent].
  split; [exact Hfulfilled|]. split; [apply lookup_delete_eq|].
  split.
  - rewrite <- Hd. apply settle_frame.
  - unfold timer_fires. apply settle_settled.
    cbn [futures set_sent]. rewrite Hfulfilled. discriminate.
Qed.

Lemma response_beats_timer_witness :
  accepted late_response (response_fields (JNum 1)) established_talker /\
  exists h t1 t2,
    send (Some (JStr "ns")) None None established_talker = (h, t1) /\
    _receiveMessage late_response t1 = Normal t2 /\
    timer_fires h t2 = t2.
Proof.
  assert (Hacc : accepted late_response (response_fields (JNum 1)) established_talker).
  { split; reflexivity. }
  split; [exact Hacc|].
  destruct (response_beats_timer (Some (JStr "ns")) None None
              established_talker late_response (response_fields (JNum 1)))
    as (h & t1 & t2 & H1 & H2 & _ & _ & _ & H6).
  - vm_compute. discriminate.
  - exact Hacc.
  - reflexivity.
  - reflexivity.
  - exists h, t1, t2. repeat split; assumption.
Defined.

(** ** What is posted *)

Lemma well_posted_same_remote (t t' : Talker) (p : json * string) :
  remoteOrigin t' = remoteOrigin t -> well_posted t p -> well_posted t' p.
Proof. unfold well_posted. intros ->. trivial. Qed.

Lemma configured_origin (t : Talker) :
  configured t = true ->
  remoteOrigin t = Some (default "" (remoteOrigin t)) /\ default "" (remoteOrigin t) <> "".
Proof.
  intros Hc. apply configured_iff in Hc. destruct Hc as (w & o & _ & -> & Ho).
  split; [reflexivity | exact Ho].
Qed.

Lemma handshake_well_posted (confirmation : bool) (t : Talker) :
  configured t = true ->
  well_posted t (if confirmation then handshake_confirmation else handshake_request,
                 default "" (remoteOrigin t)).
Proof.
  intros Hc. destruct (configured_origin t Hc) as [Ho Hne].
  split; [destruct confirmation; reflexivity|]. split; assumption.
Qed.

Lemma transmissions_well_posted (t : Talker) (q : list OutgoingMessage) :
  configured t = true ->
  Forall (fun m => om_type m = TALKER_TYPE) q ->
  Forall (well_posted t) (transmissions t q).
Proof.
  intros Hc Hq. destruct (configured_origin t Hc) as [Ho Hne].
  unfold transmissions. apply Forall_map.
  eapply Forall_impl; [exact Hq|]. intros m Hm.
  split; [|split; assumption]. cbn [fst].
  destruct (wire_fields m) as (fields & -> & Hty & _). rewrite <- Hm, <- Hty. reflexivity.
Qed.

Lemma posts_invariant_flush (t : Talker) :
  posts_invariant t -> posts_invariant (_flushQueue t).
Proof.
  intros [Hq Hp]. rewrite _flushQueue_eq. destruct (handshaken t); [|split; assumption].
  split; [constructor|]. cbn [posted set_queue set_posted].
  apply Forall_app. split.
  - eapply Forall_impl; [exact Hp|]. intros p. apply well_posted_same_remote. reflexivity.
  - destruct (configured t) eqn:Hc; [|constructor].
    eapply Forall_impl; [apply transmissions_well_posted; eassumption|].
    intros p. apply well_posted_same_remote. reflexivity.
Qed.

Lemma posts_invariant_post (confirmation : bool) (t : Talker) :
  posts_invariant t -> posts_invariant (_sendHandshake confirmation t).
Proof.
  intros [Hq Hp]. rewrite _sendHandshake_eq, _postMessage_eq.
  split; [exact Hq|]. cbn [posted set_posted].
  apply Forall_app. split.
  - eapply Forall_impl; [exact Hp|]. intros p. apply well_posted_same_remote. reflexivity.
  - destruct (configured t) eqn:Hc; [|constructor].
    constructor; [|constructor].
    eapply well_posted_same_remote; [|apply handshake_well_posted, Hc]. reflexivity.
Qed.

Lemma posts_invariant_frame (t t' : Talker) :
  _queue t' = _queue t -> posted t' = posted t -> remoteOrigin t' = remoteOrigin t ->
  posts_invariant t -> posts_invariant t'.
Proof.
  unfold posts_invariant. intros -> -> Ho [Hq Hp]. split; [exact Hq|].
  eapply Forall_impl; [exact Hp|]. intros p. apply well_posted_same_remote, Ho.
Qed.

Lemma posts_invariant_next (e : event) (t : Talker) :
  posts_invariant t -> posts_invariant (next e t).
Proof.
  intros Hinv. unfold next, step, respond.
  destruct e as [ns d rid|m d|ev|h|b]; unfold_bind.
  - rewrite send_eq. cbv zeta. cbn [snd]. apply posts_invariant_flush.
    destruct Hinv as [Hq Hp]. split.
    + cbn [_queue set_queue]. apply Forall_app. split; [exact Hq|].
      constructor; [reflexivity | constructor].
    + eapply Forall_impl; [exact Hp|]. intros p. apply well_posted_same_remote. reflexivity.
  - rewrite send_eq. cbv zeta. cbn [snd]. apply posts_invariant_flush.
    destruct Hinv as [Hq Hp]. split.
    + cbn [_queue set_queue]. apply Forall_app. split; [exact Hq|].
      constructor; [reflexivity | constructor].
    + eapply Forall_impl; [exact Hp|]. intros p. apply well_posted_same_remote. reflexivity.
  - destruct (receive_cases ev t) as [[_ ->]|[->|(fields & Hacc & ->)]];
      try exact Hinv.
    destruct (isHandshake fields).
    + rewrite _handleHandshake_object. apply posts_invariant_flush.
      rewrite resolveHandshake_frame.
      eapply (posts_invariant_frame
                (if truthy (assoc "handshake" fields)
                 then _sendHandshake (handshaken t) t else t)); try reflexivity.
      destruct (truthy (assoc "handshake" fields));
        [apply posts_invariant_post, Hinv | exact Hinv].
    + rewrite _handleMessage_state. cbv zeta.
      destruct (truthy (assoc "responseToId" fields)).
      * destruct (_sent t !! _) as [resolve|]; [|exact Hinv].
        eapply (posts_invariant_frame t); [| | |exact Hinv];
          cbn [_queue posted remoteOrigin set_sent]; apply settle_frame.
      * unfold _broadcastMessage. destruct (onMessage t); [|exact Hinv].
        eapply (posts_invariant_frame t); [| | |exact Hinv]; reflexivity.
  - eapply (posts_invariant_frame t); [| | |exact Hinv]; apply settle_frame.
  - eapply (posts_invariant_frame t); [| | |exact Hinv]; reflexivity.
Qed.

(** X19: everything an instance ever posts is a protocol message for its
    remote: in each state reached from the constructor, every [postMessage]
    call on record carried a payload whose [type] is the protocol tag and
    was addressed to the instance's own non-empty [remoteOrigin], never to
    another origin. *)
Theorem posts_are_tagged_and_addressed (t : Talker) (payload : json) (target : string) :
  reachable t ->
  In (payload, target) (posted t) ->
  member payload "type" = Normal (Some (JStr TALKER_TYPE)) /\
  remoteOrigin t = Some target /\ target <> "".
Proof.
  intros (w & o & es & ->) Hin.
  assert (Hinv : posts_invariant (run es (new_Talker w o))).
  { apply (run_preserves posts_invariant); [apply posts_invariant_next|].
    unfold new_Talker. apply posts_invariant_post. split; constructor. }
  destruct Hinv as [_ Hp]. rewrite Forall_forall in Hp.
  apply (Hp (payload, target)). apply list_elem_of_In, Hin.
Qed.

Lemma posts_are_tagged_and_addressed_witness :
  In (handshake_request, a_example) (posted awaiting_talker) /\
  remoteOrigin awaiting_talker = Some a_example.
Proof.
  assert (Hin : In (handshake_request, a_example) (posted awaiting_talker)).
  { left. reflexivity. }
  split; [exact Hin|].
  apply (posts_are_tagged_and_addressed awaiting_talker handshake_request a_example
           awaiting_talker_reachable Hin).
Defined.

(** ** Handshakes and data on the wire *)

(** X21: what [_sendHandshake] posts, [_handleHandshake] understands.  A
    configured instance posts one envelope; a peer that accepts it
    completes its handshake, and replies (with the flavour given by its own
    [handshaken] at that moment) exactly when the envelope was a request,
    not when it was a confirmation. *)
Theorem handshake_is_read_back (confirmation : bool) (ta tb : Talker)
    (messageEvent : MessageEvent) (envelope : json) :
  configured ta = true ->
  posted (_sendHandshake confirmation ta)
    = posted ta ++ [(envelope, default "" (remoteOrigin ta))] ->
  data messageEvent = Parses envelope ->
  _isSafeMessage (source messageEvent) (origin messageEvent)
                 (Some (JStr TALKER_TYPE)) tb = true ->
  _receiveMessage messageEvent tb =
  Normal (_flushQueue (resolveHandshake true (set_handshaken true
            (if confirmation then tb else _sendHandshake (handshaken tb) tb)))).
Proof.
  intros Hc Hposted Hdata Hsafe.
  rewrite _sendHandshake_eq, _postMessage_posted, Hc in Hposted.
  apply app_inv_head in Hposted. injection Hposted as <-.
  destruct confirmation.
  - assert (Hacc : accepted messageEvent
               [("type", JStr TALKER_TYPE); ("handshakeConfirmation", JBool true)] tb).
    { split; [exact Hdata | exact Hsafe]. }
    rewrite (receive_accepted _ _ _ Hacc). reflexivity.
  - assert (Hacc : accepted messageEvent
               [("type", JStr TALKER_TYPE); ("handshake", JBool true)] tb).
    { split; [exact Hdata | exact Hsafe]. }
    rewrite (receive_accepted _ _ _ Hacc). reflexivity.
Qed.

Lemma handshake_is_read_back_witness :
  configured fresh_talker = true /\
  _receiveMessage confirmation_event fresh_talker =
  Normal (_flushQueue (resolveHandshake true (set_handshaken true fresh_talker))).
Proof.
  split; [reflexivity|].
  apply (handshake_is_read_back true fresh_talker fresh_talker confirmation_event
           handshake_confirmation); reflexivity.
Defined.

Lemma next_pending_posted (e : event) (t : Talker) :
  handshaken (next e t) = false ->
  handshaken t = false /\ posted (next e t) = posted t.
Proof.
  intros Hnext.
  assert (Hh : handshaken t = false).
  { destruct (handshaken t) eqn:Hh; [|reflexivity].
    rewrite (next_handshaken e t Hh) in Hnext. discriminate. }
  split; [exact Hh|]. revert Hnext. unfold next, step, respond.
  destruct e as [ns d rid|m d|ev|h|b]; unfold_bind.
  - intros _. rewrite (send_pending _ _ _ t Hh). reflexivity.
  - intros _. rewrite (send_pending _ _ _ t Hh). reflexivity.
  - destruct (receive_cases ev t) as [[_ ->]|[->|(fields & Hacc & ->)]];
      try reflexivity.
    destruct (isHandshake fields).
    + rewrite _handleHandshake_object.
      destruct (truthy (assoc "handshake" fields)); effects; discriminate.
    + intros _. rewrite _handleMessage_state. cbv zeta.
      destruct (truthy (assoc "responseToId" fields)).
      * destruct (_sent t !! _) as [resolve|];
          [|reflexivity]. cbn [posted set_sent]. apply settle_frame.
      * unfold _broadcastMessage. destruct (onMessage t); reflexivity.
  - intros _. apply settle_frame.
  - reflexivity.
Qed.

(** X22: nothing but the constructor's handshake request leaves an instance
    before its handshake is done.  After any run of events from the
    constructor ([send]s, timers, messages accepted or not), as long as
    [handshaken] is still false the posts are exactly those the constructor
    made. *)
Theorem only_the_request_before_handshake (w : winref) (o : option string)
    (es : list event) :
  handshaken (run es (new_Talker w o)) = false ->
  posted (run es (new_Talker w o)) = posted (new_Talker w o).
Proof.
  assert (Hgen : forall es t, handshaken (run es t) = false ->
                              handshaken t = false /\ posted (run es t) = posted t).
  { clear. induction es as [|e es IH]; intros t Hh; [split; [exact Hh|reflexivity]|].
    rewrite run_cons in *. destruct (IH _ Hh) as [Hnext Hp].
    destruct (next_pending_posted e t Hnext) as [Ht Hp'].
    split; [exact Ht | congruence]. }
  intros Hh. apply Hgen, Hh.
Qed.

Lemma only_the_request_before_handshake_witness :
  handshaken (run [EvSend (Some (JStr "ns")) None None; EvReceive plain_event;
                   EvTimer 0; EvReceive garbled_event]
                  (new_Talker (WRef 1) (Some a_example))) = false /\
  posted (run [EvSend (Some (JStr "ns")) None None; EvReceive plain_event;
               EvTimer 0; EvReceive garbled_event]
              (new_Talker (WRef 1) (Some a_example)))
  = [(handshake_request, a_example)].
Proof.
  split; [reflexivity|].
  apply (only_the_request_before_handshake (WRef 1) (Some a_example)
           [EvSend (Some (JStr "ns")) None None; EvReceive plain_event;
            EvTimer 0; EvReceive garbled_event]).
  reflexivity.
Defined.

(** ** Names of stored entries *)

Lemma all_digits_app (a b : string) :
  all_digits (a +:+ b) = all_digits a && all_digits b.
Proof.
  induction a as [|c a IH]; [reflexivity|].
  simpl. rewrite IH. apply andb_assoc.
Qed.

Lemma pretty_N_char_digit (x : N) : is_digit (pretty_N_char x) = true.
Proof.
  unfold pretty_N_char.
  repeat (match goal with |- context [match ?p with _ => _ end] => destruct p end);
    reflexivity.
Qed.

Lemma pretty_N_go_digits (x : N) :
  forall s, all_digits s = true -> all_digits (pretty_N_go x s) = true.
Proof.
  induction (N.lt_wf_0 x) as [x _ IH]. intros s Hs.
  destruct (decide (0 < x)%N) as [Hpos|Hzero].
  - rewrite pretty_N_go_step by exact Hpos.
    apply IH; [apply N.div_lt; [exact Hpos | reflexivity]|].
    cbn [all_digits]. rewrite pretty_N_char_digit. exact Hs.
  - assert (x = 0%N) as -> by lia. rewrite pretty_N_go_0. exact Hs.
Qed.

Lemma id_name_digits (i : Z) :
  (1 <= i <= MAX_EXACT)%Z -> all_digits (ToString (JNum i)) = true.
Proof.
  intros Hi. cbn [ToString]. rewrite Number_toString_exact by lia.
  destruct i as [|i|i]; try lia.
  unfold pretty, pretty_Z, pretty, pretty_positive, pretty, pretty_N.
  destruct (decide (N.pos i = 0%N)); [discriminate|].
  apply pretty_N_go_digits. reflexivity.
Qed.

Lemma raising_single (x : json) :
  (conversion_raises x = true -> all_digits (ToString x) = false) ->
  conversion_raises (JArr [x]) = true -> all_digits (ToString (JArr [x])) = false.
Proof.
  intros Hx. cbn [conversion_raises ToString]. rewrite orb_false_r.
  intros Hraise. destruct x; try discriminate; apply Hx, Hraise.
Qed.

Lemma raising_several (x y : json) (rest : list json) :
  all_digits (ToString (JArr (x :: y :: rest))) = false.
Proof.
  cbn [ToString]. rewrite !all_digits_app.
  replace (all_digits ",") with false by reflexivity.
  rewrite andb_false_l. apply andb_false_r.
Qed.

Lemma raising_name_not_digits :
  forall v : json, conversion_raises v = true -> all_digits (ToString v) = false.
Proof.
  fix IH 1. intros v.
  destruct v as [| b | n | s | items | fields]; try discriminate.
  - destruct items as [|x rest]; [discriminate|].
    destruct rest as [|y rest].
    + apply raising_single, IH.
    + intros _. apply raising_several.
  - intros _. reflexivity.
Qed.

Lemma inherited_name_not_digits (key : string) :
  Object_prototype key <> None -> all_digits key = false.
Proof.
  unfold Object_prototype. intros H.
  destruct (bool_decide _) eqn:H1.
  - apply bool_decide_eq_true in H1.
    repeat (apply elem_of_cons in H1; destruct H1 as [->|H1]; [reflexivity|]).
    apply elem_of_nil in H1. contradiction.
  - destruct (bool_decide _) eqn:H2 in H; [|contradiction].
    apply bool_decide_eq_true in H2.
    repeat (apply elem_of_cons in H2; destruct H2 as [->|H2]; [reflexivity|]).
    apply elem_of_nil in H2. contradiction.
Qed.

(** In the states a run reaches, an entry is stored only under the name of
    an id: a value that finds one converts without raising, and its name is
    not one [_sent] inherits.  So the lookup order of [_respondToMessage]
    agrees with the source's, which converts first. *)
Lemma stored_entry_converts (t : Talker) (id : option json) :
  reachable t ->
  is_Some (_sent t !! property_key id) ->
  ToPropertyKey id = Normal (property_key id) /\
  Object_prototype (property_key id) = None.
Proof.
  intros Hreach Hsome.
  destruct (reachable_keys_assigned t Hreach _ Hsome) as (i & Hi & Hname).
  destruct (reachable_invariant t Hreach) as [_ _ Hrange].
  assert (Hdigits : all_digits (property_key id) = true).
  { rewrite Hname. apply id_name_digits. lia. }
  split.
  - destruct id as [j|]; [|discriminate]. cbn [ToPropertyKey property_key] in *.
    destruct (conversion_raises j) eqn:Hraise; [|reflexivity].
    rewrite (raising_name_not_digits j Hraise) in Hdigits. discriminate.
  - destruct (Object_prototype (property_key id)) eqn:Hproto; [|reflexivity].
    rewrite inherited_name_not_digits in Hdigits by congruence. discriminate.
Qed.

(** ** Where the receive handler raises *)

(** X1: in a state reached from the constructor, the receive handler raises
    in exactly two places, each time with a [TypeError] and before anything
    is written: on a payload that parses to [null], at the read of
    [object.type]; and on an accepted, non-handshake message with a truthy
    [responseToId] that either does not convert to a property name (an
    object with an own [toString] member, or an array holding one) or names
    one of the members [__proto__], [__defineGetter__], [__defineSetter__]
    that [_sent] inherits.  Every other event completes normally. *)
Theorem receive_raises_exactly (messageEvent : MessageEvent) (t : Talker) (e : string) :
  reachable t ->
  _receiveMessage messageEvent t = Throw e <->
  e = "TypeError" /\
  (data messageEvent = Parses JNull \/
   exists fields responseId,
     accepted messageEvent fields t /\
     isHandshake fields = false /\
     assoc "responseToId" fields = Some responseId /\
     truthy (Some responseId) = true /\
     (conversion_raises responseId = true \/
      Object_prototype (ToString responseId) = Some CallRaises)).
Proof.
  intros Hreach. split.
  - intros Hthrow.
    destruct (receive_cases messageEvent t) as [[Hnull H]|[H|(fields & Hacc & H)]].
    + split; [congruence | left; exact Hnull].
    + congruence.
    + rewrite H in Hthrow. destruct (isHandshake fields) eqn:Hhs.
      * rewrite _handleHandshake_object in Hthrow. discriminate.
      * rewrite _handleMessage_object in Hthrow. cbv zeta in Hthrow.
        destruct (truthy (assoc "responseToId" fields)) eqn:Htruthy; [|discriminate].
        destruct (assoc "responseToId" fields) as [rid|] eqn:Hrid; [|discriminate].
        unfold _respondToMessage in Hthrow. cbn [property_key ToPropertyKey] in Hthrow.
        destruct (_sent t !! ToString rid); [discriminate|].
        unfold mbind, mret, completion_bind, completion_ret in Hthrow.
        destruct (conversion_raises rid) eqn:Hconv.
        -- split; [congruence|]. right. exists fields, rid.
           split; [exact Hacc|]. split; [exact Hhs|]. split; [exact Hrid|].
           split; [exact Htruthy|]. left. exact Hconv.
        -- destruct (Object_prototype (ToString rid)) as [[|]|] eqn:Hproto;
             try discriminate.
           split; [congruence|]. right. exists fields, rid.
           split; [exact Hacc|]. split; [exact Hhs|]. split; [exact Hrid|].
           split; [exact Htruthy|]. right. exact Hproto.
  - intros [-> [Hnull|(fields & rid & Hacc & Hnot & Hrid & Htruthy & Hraise)]].
    + unfold _receiveMessage. rewrite Hnull. reflexivity.
    + assert (Hnone : _sent t !! ToString rid = None).
      { destruct (_sent t !! ToString rid) as [h|] eqn:Hh; [|reflexivity].
        destruct (stored_entry_converts t (Some rid) Hreach (mk_is_Some _ _ Hh))
          as [Hconv Hproto].
        cbn [ToPropertyKey property_key] in *.
        destruct Hraise as [Hraise|Hraise].
        - rewrite Hraise in Hconv. discriminate.
        - congruence. }
      rewrite (receive_accepted _ _ _ Hacc), Hnot, _handleMessage_object.
      cbv zeta. rewrite Hrid, Htruthy. unfold _respondToMessage.
      cbn [property_key ToPropertyKey]. rewrite Hnone. unfold_bind.
      destruct (conversion_raises rid); [reflexivity|].
      destruct Hraise as [Hraise | ->]; [discriminate | reflexivity].
Qed.

Lemma receive_raises_exactly_witness :
  reachable established_talker /\
  _receiveMessage (event_from_remote
                     (JObj (response_fields (JObj [("toString", JNum 0)]))))
                  established_talker = Throw "TypeError".
Proof.
  split; [exact established_talker_reachable|].
  apply (receive_raises_exactly _ established_talker "TypeError"
           established_talker_reachable).
  split; [reflexivity|]. right.
  exists (response_fields (JObj [("toString", JNum 0)])), (JObj [("toString", JNum 0)]).
  split; [split; reflexivity|]. repeat split. left. reflexivity.
Defined.

(** X20: the wire form of an outgoing message is never taken for a
    handshake, whatever its namespace and data: an instance that accepts it
    hands it to [_handleMessage], and when that returns, [handshaken], the
    handshake promise, the queue and the posts are as they were. *)
Theorem data_message_is_not_a_handshake (m : OutgoingMessage)
    (messageEvent : MessageEvent) (t : Talker) :
  data messageEvent = Parses (wire m) ->
  _isSafeMessage (source messageEvent) (origin messageEvent)
                 (Some (JStr (om_type m))) t = true ->
  _receiveMessage messageEvent t = _handleMessage (wire m) t /\
  forall t', _receiveMessage messageEvent t = Normal t' ->
    handshaken t' = handshaken t /\ handshake t' = handshake t /\
    _queue t' = _queue t /\ posted t' = posted t.
Proof.
  intros Hdata Hsafe.
  destruct (wire_fields m) as (fields & Hwire & Hty & Hnot & _).
  assert (Hacc : accepted messageEvent fields t).
  { split; [rewrite Hdata, Hwire; reflexivity|]. rewrite Hty. exact Hsafe. }
  rewrite (receive_accepted _ _ _ Hacc), Hnot, Hwire.
  split; [reflexivity|]. intros t' Hnormal.
  pose proof (_handleMessage_state fields t) as Hstate.
  rewrite Hnormal in Hstate. cbv zeta in Hstate. subst t'.
  destruct (truthy (assoc "responseToId" fields)).
  - destruct (_sent t !! _) as [resolve|]; [|repeat split].
    cbn [handshaken handshake _queue posted set_sent].
    repeat split; apply settle_frame.
  - unfold _broadcastMessage. destruct (onMessage t); repeat split.
Qed.

Lemma data_message_is_not_a_handshake_witness :
  _receiveMessage
    (event_from_remote
       (wire (fst (new_OutgoingMessage (Some (JStr "handshake"))
                     (Some (JObj [("handshake", JBool true)])) None fresh_talker))))
    fresh_talker
  = _handleMessage
      (wire (fst (new_OutgoingMessage (Some (JStr "handshake"))
                    (Some (JObj [("handshake", JBool true)])) None fresh_talker)))
      fresh_talker.
Proof.
  apply (data_message_is_not_a_handshake
           (fst (new_OutgoingMessage (Some (JStr "handshake"))
                   (Some (JObj [("handshake", JBool true)])) None fresh_talker))
           (event_from_remote
              (wire (fst (new_OutgoingMessage (Some (JStr "handshake"))
                            (Some (JObj [("handshake", JBool true)])) None
                            fresh_talker))))
           fresh_talker eq_refl eq_refl).
Defined.
